(** * echo-opt: the configuration path updater, the objective adapter and
      the wall-time budget loop

    A shallow embedding of
      - [echo/src/base_objective.py]  ([BaseObjective.update_config],
        [BaseObjective.save]),
      - [echo/run.py]                 (the optimisation loop of [main]),
    and of the two helpers of [echo/src/config.py] they call
    ([recursive_update], [recursive_config_reader]).

    Python dictionaries keep their insertion order and the code depends on
    it (dataframe columns, [items()] iteration), so a dictionary is an
    association list with unique keys, in insertion order.  Numbers that
    the code computes in floating point are binary64 floats. *)

From Stdlib Require Import List String Ascii ZArith Bool Lia Floats Sorted.
Import ListNotations.

Set Warnings "-register-all,-inexact-float".

Local Open Scope string_scope.
Local Open Scope list_scope.

(** ** Python values *)

(** The scalars and lists that configuration documents, suggested
    parameters, metrics and dataframe cells hold. *)
Inductive pyval : Type :=
| VNone
| VBool (b : bool)
| VInt (z : Z)
| VFloat (f : float)
| VStr (s : string)
| VList (items : list pyval).

(** ** Insertion-ordered dictionaries *)

Definition dict (A : Type) : Type := list (string * A).

Definition keys {A} (d : dict A) : list string := map fst d.

(** [d.get(k)] *)
Fixpoint dict_get {A} (k : string) (d : dict A) : option A :=
  match d with
  | [] => None
  | (k', v) :: tl => if String.eqb k k' then Some v else dict_get k tl
  end.

(** [k in d] *)
Definition dict_mem {A} (k : string) (d : dict A) : bool :=
  match dict_get k d with Some _ => true | None => false end.

(** [d[k] = v]: an existing key keeps its position, a new key goes last. *)
Fixpoint dict_set {A} (k : string) (v : A) (d : dict A) : dict A :=
  match d with
  | [] => [(k, v)]
  | (k', v') :: tl =>
      if String.eqb k k' then (k', v) :: tl else (k', v') :: dict_set k v tl
  end.

(** ** Exceptions *)

Inductive exn : Type :=
| AssertionError (msg : string)
| AttributeError (msg : string)
| KeyError (key : string)
| IndexError
| ValueError (msg : string)
| TypeError (msg : string).

Inductive result (A : Type) : Type :=
| Ok (a : A)
| Raise (e : exn).
Arguments Ok {A} a.
Arguments Raise {A} e.

(** ** The configuration tree and its two helpers ([echo/src/config.py]) *)

Module Config.

(** A configuration tree maps string keys to leaves (scalars, lists) or
    to further mappings. *)
Inductive node : Type :=
| Leaf (v : pyval)
| Map (kvs : list (string * node)).

Definition tree : Type := dict node.

Definition empty : tree := [].

(** Modelled from the spec: [recursive_update] of [echo/src/config.py],
    which is not among the sources.  Section 4.1: if the path has one
    segment, set [tree[path[0]] = value]; otherwise, if [tree[path[0]]]
    does not exist or is not a mapping, create or replace it with an
    empty mapping, and recurse into it with [path[1:]].  The value is
    any tree value.  The section says nothing about the empty path; it
    has no first segment to index, so it raises. *)
Fixpoint recursive_update (path : list string) (t : tree) (value : node)
  : result tree :=
  match path with
  | [] => Raise IndexError
  | k :: rest =>
      match rest with
      | [] => Ok (dict_set k value t)
      | _ :: _ =>
          let sub :=
            match dict_get k t with
            | Some (Map m) => m
            | _ => []
            end in
          match recursive_update rest sub value with
          | Ok sub' => Ok (dict_set k (Map sub') t)
          | Raise e => Raise e
          end
      end
  end.

(** Modelled from the spec: [recursive_config_reader] of
    [echo/src/config.py], which is not among the sources.  Section 4.1:
    [flatten(tree)] produces one (path, value) pair per leaf
    (non-mapping value), the path being the full segment sequence from
    the root.  The pairs come in the dictionaries' iteration order. *)
Fixpoint flatten_node (prefix : list string) (n : node)
  : list (list string * pyval) :=
  match n with
  | Leaf v => [(prefix, v)]
  | Map kvs =>
      (fix entries (l : list (string * node)) :=
         match l with
         | [] => []
         | (k, c) :: tl => flatten_node (prefix ++ [k]) c ++ entries tl
         end) kvs
  end.

Definition recursive_config_reader (t : tree) : list (list string * pyval) :=
  flatten_node [] (Map t).

(** The tree that holds [value] at [path] and nothing else: a chain of
    one-entry mappings down to the value. *)
Fixpoint chain (path : list string) (value : node) : tree :=
  match path with
  | [] => []
  | k :: rest =>
      match rest with
      | [] => [(k, value)]
      | _ :: _ => [(k, Map (chain rest value))]
      end
  end.

(** The pairs of the entries of a mapping that sits at [prefix]. *)
Definition flatten_entries (prefix : list string) (kvs : list (string * node))
  : list (list string * pyval) :=
  flat_map (fun kv => flatten_node (prefix ++ [fst kv]) (snd kv)) kvs.

End Config.

(** ** Strings as Python uses them here *)

Definition colon : ascii := ":"%char.

(** [":" in s] *)
Fixpoint has_colon (s : string) : bool :=
  match s with
  | EmptyString => false
  | String c tl => if Ascii.eqb c colon then true else has_colon tl
  end.

(** [s.split(":")]: never empty; a string without colon is its own only
    segment. *)
Fixpoint split_colon (s : string) : list string :=
  match s with
  | EmptyString => [EmptyString]
  | String c tl =>
      if Ascii.eqb c colon then EmptyString :: split_colon tl
      else match split_colon tl with
           | [] => [String c EmptyString]
           | seg :: segs => String c seg :: segs
           end
  end.

(** [":".join(l)] for a list of strings. *)
Fixpoint join_colon (l : list string) : string :=
  match l with
  | [] => EmptyString
  | s :: tl =>
      match tl with
      | [] => s
      | _ :: _ => (s ++ String colon (join_colon tl))%string
      end
  end.

(** Iterating a [str] yields its characters as one-character strings. *)
Fixpoint chars (s : string) : list string :=
  match s with
  | EmptyString => []
  | String c tl => String c EmptyString :: chars tl
  end.

(** [u in s] for two strings: [u] occurs in [s] as a substring. *)
Fixpoint is_substring (u s : string) : bool :=
  if String.prefix u s then true
  else match s with
       | EmptyString => false
       | String _ tl => is_substring u tl
       end.

(** [u in l] for a list of strings. *)
Definition mem_str (u : string) (l : list string) : bool :=
  existsb (String.eqb u) l.

Definition tab : string := String (ascii_of_nat 9) EmptyString.

(** ** A state and exception monad

    [save] mutates the adapter (its in-memory ledger, its results file) and
    may raise half-way; what it has mutated by then stays mutated. *)

Definition M (S A : Type) : Type := S -> S * result A.

Definition ret {S A} (a : A) : M S A := fun s => (s, Ok a).

Definition raise {S A} (e : exn) : M S A := fun s => (s, Raise e).

Definition bind {S A B} (c : M S A) (k : A -> M S B) : M S B :=
  fun s =>
    match c s with
    | (s', Ok a) => k a s'
    | (s', Raise e) => (s', Raise e)
    end.

Definition lift {S A} (r : result A) : M S A := fun s => (s, r).

Notation "x <- c ;; k" := (bind c (fun x => k))
  (at level 61, c at next level, right associativity).
Notation "c ;; k" := (bind c (fun _ => k))
  (at level 61, right associativity).

Fixpoint for_each {S A} (f : A -> M S unit) (l : list A) : M S unit :=
  match l with
  | [] => ret tt
  | a :: tl => f a ;; for_each f tl
  end.

Fixpoint map_m {S A B} (f : A -> M S B) (l : list A) : M S (list B) :=
  match l with
  | [] => ret []
  | a :: tl => b <- f a ;; bs <- map_m f tl ;; ret (b :: bs)
  end.

Fixpoint map_result {A B} (f : A -> result B) (l : list A) : result (list B) :=
  match l with
  | [] => Ok []
  | a :: tl =>
      match f a with
      | Raise e => Raise e
      | Ok b =>
          match map_result f tl with
          | Raise e => Raise e
          | Ok bs => Ok (b :: bs)
          end
      end
  end.

(** ** Dataframes, as far as [save] uses pandas *)

Module Frame.

(** A row maps each column name to a cell. *)
Definition row : Type := dict pyval.

Record frame : Type := { columns : list string; rows : list row }.

Definition NaN : pyval := VFloat nan.

(** An entry of the dictionary the frame is built from: a list (one cell
    per row) or a scalar (broadcast to every row). *)
Inductive entry : Type :=
| Col (cells : list pyval)
| Scalar (v : pyval).

Definition col_lengths (d : dict entry) : list nat :=
  flat_map (fun kv => match snd kv with
                      | Col l => [List.length l]
                      | Scalar _ => []
                      end) d.

Definition cell_at (i : nat) (e : entry) : pyval :=
  match e with
  | Col l => nth i l NaN
  | Scalar v => v
  end.

(** Row [i] of the frame built from [d]. *)
Definition row_at (d : dict entry) (i : nat) : row :=
  map (fun kv => (fst kv, cell_at i (snd kv))) d.

(** [pd.DataFrame.from_dict(d)]: the lists must have one common length,
    which is the number of rows; all-scalar input needs an index. *)
Definition from_dict (d : dict entry) : result frame :=
  match d, col_lengths d with
  | [], _ => Ok {| columns := []; rows := [] |}
  | _ :: _, [] =>
      Raise (ValueError "If using all scalar values, you must pass an index")
  | _ :: _, n :: ns =>
      if forallb (Nat.eqb n) ns
      then Ok {| columns := keys d; rows := map (row_at d) (seq 0 n) |}
      else Raise (ValueError "All arrays must be of the same length")
  end.

(** Align a row on the given columns; a column it lacks reads NaN. *)
Definition reindex (cols : list string) (r : row) : row :=
  map (fun c => (c, match dict_get c r with Some v => v | None => NaN end)) cols.

(** [pd.read_csv(file, usecols=usecols)]: every requested column must be
    in the file; the columns come back in the file's order. *)
Definition read_csv (file : frame) (usecols : list string) : result frame :=
  if forallb (fun c => mem_str c (columns file)) usecols
  then let cols := filter (fun c => mem_str c usecols) (columns file) in
       Ok {| columns := cols; rows := map (reindex cols) (rows file) |}
  else Raise (ValueError "Usecols do not match columns")
.

(** [pd.concat([a, b]).reset_index(drop=True)]: the rows of [a], then
    those of [b], on the union of the columns. *)
Definition concat (a b : frame) : frame :=
  let cols := columns a ++ filter (fun c => negb (mem_str c (columns a))) (columns b) in
  {| columns := cols; rows := map (reindex cols) (rows a ++ rows b) |}.

(** The trial number of a row.  The model covers ledgers whose [trial]
    column holds integers, as every ledger this code writes does;
    pandas would also compare and sort other cells, which is left out. *)
Definition trial_of (r : row) : result Z :=
  match dict_get "trial" r with
  | Some (VInt z) => Ok z
  | Some _ => Raise (TypeError "trial column: only integers are modelled")
  | None => Raise (KeyError "trial")
  end.

Definition keyed (rs : list row) : result (list (Z * row)) :=
  map_result (fun r => match trial_of r with
                       | Ok z => Ok (z, r)
                       | Raise e => Raise e
                       end) rs.

Definition mem_Z (z : Z) (l : list Z) : bool := existsb (Z.eqb z) l.

(** [drop_duplicates(["trial"])] keeps the first row of each trial
    number. *)
Fixpoint drop_dups (seen : list Z) (rs : list (Z * row)) : list (Z * row) :=
  match rs with
  | [] => []
  | (z, r) :: tl =>
      if mem_Z z seen then drop_dups seen tl
      else (z, r) :: drop_dups (z :: seen) tl
  end.

Fixpoint insert_row (x : Z * row) (l : list (Z * row)) : list (Z * row) :=
  match l with
  | [] => [x]
  | y :: tl => if (fst x <=? fst y)%Z then x :: y :: tl else y :: insert_row x tl
  end.

(** [sort_values(["trial"])], ascending.  pandas' default sort is not
    stable, which only shows among equal keys. *)
Fixpoint sort_rows (l : list (Z * row)) : list (Z * row) :=
  match l with
  | [] => []
  | x :: tl => insert_row x (sort_rows tl)
  end.

(** [df.drop_duplicates(["trial"]).sort_values(["trial"])] *)
Definition dedup_sort (df : frame) : result frame :=
  match keyed (rows df) with
  | Raise e => Raise e
  | Ok krs =>
      Ok {| columns := columns df;
            rows := map snd (sort_rows (drop_dups [] krs)) |}
  end.

(** The trial numbers of a frame, row by row. *)
Definition trial_numbers (df : frame) : result (list Z) :=
  map_result trial_of (rows df).

End Frame.

(** ** The objective adapter ([echo/src/base_objective.py]) *)

Module Objective.
Import Config Frame.

(** What the adapter reads from the optimizer's trial handle. *)
Record trial : Type :=
  { number : Z; params : dict pyval; should_prune : bool }.

(** [self.metric]: one name, or a list of names. *)
Inductive metric_spec : Type :=
| Single (m : string)
| Multi (ms : list string).

(** The mutable part of the adapter: [self.results], a
    [defaultdict(list)], and the file at [self.results_fn] ([None] while
    it does not exist). *)
Record adapter : Type :=
  { results : dict entry; results_file : option frame }.

(** [set_properties] starts with an empty ledger. *)
Definition summoned (file : option frame) : adapter :=
  {| results := []; results_file := file |}.

Definition getitem {A} (k : string) (d : dict A) : result A :=
  match dict_get k d with
  | Some v => Ok v
  | None => Raise (KeyError k)
  end.

Definition missing_metric (m : string) : string :=
  ("You must return the metric " ++ m
   ++ " result to the hyperparameter optimizer")%string.

(** [assert m in results_dict, ...] *)
Definition assert_metric (m : string) (results_dict : dict pyval)
  : M adapter unit :=
  if dict_mem m results_dict then ret tt
  else raise (AssertionError (missing_metric m)).

(** [self.results[k].append(v)]: a missing key starts an empty list; an
    entry that is not a list has no [append]. *)
Definition append (k : string) (v : pyval) : M adapter unit :=
  fun a =>
    match dict_get k (results a) with
    | None =>
        ({| results := dict_set k (Col [v]) (results a);
            results_file := results_file a |}, Ok tt)
    | Some (Col l) =>
        ({| results := dict_set k (Col (l ++ [v])) (results a);
            results_file := results_file a |}, Ok tt)
    | Some (Scalar _) =>
        (a, Raise (AttributeError "'int' object has no attribute 'append'"))
    end.

(** [self.results[k] = e] *)
Definition setitem (k : string) (e : entry) : M adapter unit :=
  fun a =>
    ({| results := dict_set k e (results a);
        results_file := results_file a |}, Ok tt).

(** [self.results[k]]: reading a missing key of a [defaultdict(list)]
    inserts the empty list. *)
Definition lookup (k : string) : M adapter entry :=
  fun a =>
    match dict_get k (results a) with
    | Some e => (a, Ok e)
    | None =>
        ({| results := dict_set k (Col []) (results a);
            results_file := results_file a |}, Ok (Col []))
    end.

(** [df.to_csv(self.results_fn)], line 126.  The call leaves pandas'
    default [index=True], so the file written has the row labels as a
    first column, under an empty name, before the frame's columns.
    [save] reads the file back by the names of the ledger's columns
    (line 122, [usecols]) and never reads that column, so the file is
    kept as the frame of its named columns. *)
Definition to_csv (df : frame) : M adapter unit :=
  fun a => ({| results := results a; results_file := Some df |}, Ok tt).


Definition pyval_of_entry (e : entry) : pyval :=
  match e with
  | Col l => VList l
  | Scalar v => v
  end.

(** Lines 95-104: the metric check. *)
Definition check_metrics (metric : metric_spec) (results_dict : dict pyval)
  : M adapter unit :=
  match metric with
  | Single m => assert_metric m results_dict
  | Multi ms => for_each (fun m => assert_metric m results_dict) ms
  end.

(** [int(trial.should_prune())] *)
Definition pruned_flag (t : trial) : pyval := VInt (Z.b2z (should_prune t)).

(** Lines 107-116: the trial goes into the in-memory ledger. *)
Definition record_trial (t : trial) (results_dict : dict pyval)
  : M adapter unit :=
  append "trial" (VInt (number t)) ;;
  for_each (fun pv => append (fst pv) (snd pv)) (params t) ;;
  for_each (fun mv => append (fst mv) (snd mv)) results_dict ;;
  setitem "pruned" (Scalar (pruned_flag t)).

(** Lines 117-126: the ledger goes to disk, merged with the file. *)
Definition persist : M adapter unit :=
  fun a =>
    (df <- lift (from_dict (results a)) ;;
     df <- match results_file a with
           | Some file =>
               other <- lift (read_csv file (columns df)) ;;
               ret (concat df other)
           | None => ret df
           end ;;
     df <- lift (dedup_sort df) ;;
     to_csv df) a.

(** [BaseObjective.save(self, trial, results_dict)] *)
Definition save (metric : metric_spec) (t : trial) (results_dict : dict pyval)
  : M adapter pyval :=
  check_metrics metric results_dict ;;
  record_trial t results_dict ;;
  persist ;;
  match metric with
  | Single m => lift (getitem m results_dict)
  | Multi ms =>
      es <- map_m lookup ms ;;
      ret (VList (map pyval_of_entry es))
  end.

(** The metric names a study requires. *)
Definition required (metric : metric_spec) : list string :=
  match metric with
  | Single m => [m]
  | Multi ms => ms
  end.

(** A call got past the metric check and the appends when it did not
    end in one of their two errors. *)
Definition past_recording {A} (out : result A) : Prop :=
  match out with
  | Raise (AssertionError _) => False
  | Raise (AttributeError _) => False
  | _ => True
  end.

(** The cells of column [k] of the in-memory ledger. *)
Definition column (k : string) (d : dict entry) : list pyval :=
  match dict_get k d with
  | Some (Col l) => l
  | _ => []
  end.

(** The values that a run over [items] appends to column [k]. *)
Definition appended (k : string) (items : dict pyval) : list pyval :=
  map snd (filter (fun kv => String.eqb (fst kv) k) items).

(** [for (k, v) in items: self.results[k].append(v)] *)
Definition append_all (items : dict pyval) : M adapter unit :=
  for_each (fun kv => append (fst kv) (snd kv)) items.

(** Lines 120-123: the frame that goes on to [drop_duplicates], given
    the frame [mdf] of the in-memory ledger and the file. *)
Definition merged (file : option frame) (mdf full : frame) : Prop :=
  match file with
  | None => full = mdf
  | Some f => exists other, read_csv f (columns mdf) = Ok other
                            /\ full = concat mdf other
  end.

(** Everything [record_trial] appends, in order. *)
Definition written (t : trial) (results_dict : dict pyval) : dict pyval :=
  ("trial", VInt (number t)) :: params t ++ results_dict.

(** The ledger after the first trial of a process: one cell per name
    written, and the flag. *)
Definition first_ledger (t : trial) (results_dict : dict pyval) : dict entry :=
  map (fun kv => (fst kv, Col [snd kv])) (written t results_dict)
  ++ [("pruned", Scalar (pruned_flag t))].

(** The one-row frame of that ledger. *)
Definition first_frame (t : trial) (results_dict : dict pyval) : frame :=
  {| columns := keys (written t results_dict) ++ ["pruned"];
     rows := [written t results_dict ++ [("pruned", pruned_flag t)]] |}.

(** The ledger [r'] holds every list of [r], possibly longer; the scalar
    [pruned] is left out. *)
Definition grows (r r' : dict entry) : Prop :=
  forall k l, k <> "pruned" -> dict_get k r = Some (Col l) ->
              exists l', dict_get k r' = Some (Col (l ++ l')).

(** A step never shortens the ledger, however it ends. *)
Definition growing {A} (c : M adapter A) : Prop :=
  forall a a' out, c a = (a', out) -> grows (results a) (results a').

(** *** [update_config] *)

Section UpdateConfig.

(** [trial_suggest_loader(trial, update)] of
    [echo/src/trial_suggest.py], which is not among the sources: it
    turns a suggestion spec into one value asked from the trial, or
    raises. *)
Variable trial_suggest_loader : trial -> node -> result pyval.

(** [conf["optuna"]["parameters"]] *)
Definition parameters (conf : tree) : result (dict node) :=
  match getitem "optuna" conf with
  | Raise e => Raise e
  | Ok (Leaf _) => Raise (TypeError "conf['optuna'] is not a mapping")
  | Ok (Map o) =>
      match getitem "parameters" o with
      | Raise e => Raise e
      | Ok (Leaf _) => Raise (AttributeError "no attribute 'items'")
      | Ok (Map ps) => Ok ps
      end
  end.

(** The first loop's variables; [suggested] lists the calls made to
    [trial_suggest_loader], with the name they were made for. *)
Record progress : Type :=
  { conf : tree; updated : list string; suggested : list (string * node) }.

(** One turn of the loop at lines 58-69. *)
Definition update_one (t : trial) (p : progress) (item : string * node)
  : result progress :=
  let named_parameter := fst item in
  let update := snd item in
  if has_colon named_parameter then
    match trial_suggest_loader t update with
    | Raise e => Raise e
    | Ok v =>
        match recursive_update (split_colon named_parameter) (conf p) (Leaf v) with
        | Raise e => Raise e
        | Ok c =>
            Ok {| conf := c;
                  updated := updated p ++ [named_parameter];
                  suggested := suggested p ++ [(named_parameter, update)] |}
        end
    end
  else if dict_mem named_parameter (conf p) then
    match trial_suggest_loader t update with
    | Raise e => Raise e
    | Ok v =>
        Ok {| conf := dict_set named_parameter (Leaf v) (conf p);
              updated := updated p ++ [named_parameter];
              suggested := suggested p ++ [(named_parameter, update)] |}
    end
  else Ok p.

(** The loop runs over the items the mapping had on entry; a declared
    path that reaches into [optuna:parameters] itself would alias the
    mapping under iteration, which is left out. *)
Fixpoint update_all (t : trial) (p : progress) (items : dict node)
  : result progress :=
  match items with
  | [] => Ok p
  | item :: tl =>
      match update_one t p item with
      | Raise e => Raise e
      | Ok p' => update_all t p' tl
      end
  end.

(** The loop variable [k] of lines 72-78: a path (a list of segments)
    as the reader yields it, a string once line 76 has joined it. *)
Inductive kvar : Type :=
| KPath (p : list string)
| KStr (s : string).

(** [u in k] *)
Definition k_contains (u : string) (k : kvar) : bool :=
  match k with
  | KPath p => mem_str u p
  | KStr s => is_substring u s
  end.

(** [":".join(k)] *)
Definition k_join (k : kvar) : string :=
  match k with
  | KPath p => join_colon p
  | KStr s => join_colon (chars s)
  end.

(** [u.split(":")[-1] if len(u.split(":")) else u] *)
Definition last_segment (u : string) : string := last (split_colon u) u.

Record audit : Type :=
  { observed : list string; info : list (string * pyval) }.

(** Lines 73-78, for one pair [(k, v)] of the reader. *)
Fixpoint match_updated (v : pyval) (us : list string) (k : kvar) (a : audit)
  : audit :=
  match us with
  | [] => a
  | u :: tl =>
      if k_contains (last_segment u) k
      then let s := k_join k in
           match_updated v tl (KStr s)
             {| observed := observed a ++ [s]; info := info a ++ [(s, v)] |}
      else match_updated v tl k a
  end.

(** Lines 71-78. *)
Fixpoint observe (us : list string) (leaves : list (list string * pyval))
  (a : audit) : audit :=
  match leaves with
  | [] => a
  | kv :: tl => observe us tl (match_updated (snd kv) us (KPath (fst kv)) a)
  end.

(** Line 80: [list(set(hyperparameters.keys()) - set(observed))]; a
    set has no order of its own, the model keeps the declaration
    order. *)
Definition not_updated (hyperparameters : dict node) (obs : list string)
  : list string :=
  filter (fun p => negb (mem_str p obs)) (keys hyperparameters).

(** Line 82: the warning for one name. *)
Definition not_auto_updated (p : string) : string :=
  (tab ++ p ++ " was not auto-updated by ECHO")%string.

(** Lines 81-88: the warnings. *)
Definition warn (nu : list string) : list string :=
  map not_auto_updated nu
  ++ match nu with
     | [] => []
     | _ :: _ =>
         ["Not all parameters were updated by ECHO";
          "There may be a mismatch between the model and hyper config files";
          "If using custom_updates, ignore this message"]
     end.

(** What the loop variable [k] can be traced back to: a path is one the
    reader yielded; a string without colon is the one segment of such a
    path. *)
Definition traceable (leaves : list (list string * pyval)) (k : kvar) : Prop :=
  match k with
  | KPath p => exists v, In (p, v) leaves
  | KStr s => has_colon s = false -> exists v, In ([s], v) leaves
  end.

(** The top level of the tree has no leaf under [n]. *)
Definition no_top_leaf (n : string) (c : tree) : Prop :=
  forall v, ~ In (n, Leaf v) c.

Record configured : Type :=
  { new_conf : tree;
    suggestions : list (string * node);
    infos : list (string * pyval);
    unmatched : list string;
    warnings : list string }.

(** [BaseObjective.update_config(self, trial)], on a copy of
    [self.config]. *)
Definition update_config (config : tree) (t : trial) : result configured :=
  match parameters config with
  | Raise e => Raise e
  | Ok hyperparameters =>
      match update_all t {| conf := config; updated := []; suggested := [] |}
              hyperparameters with
      | Raise e => Raise e
      | Ok p =>
          let a := observe (updated p) (recursive_config_reader (conf p))
                     {| observed := []; info := [] |} in
          let nu := not_updated hyperparameters (observed a) in
          Ok {| new_conf := conf p;
                suggestions := suggested p;
                infos := info a;
                unmatched := nu;
                warnings := warn nu |}
      end
  end.

End UpdateConfig.

End Objective.

(** ** The wall-time budget loop ([echo/run.py], lines 186-234) *)

Module Budget.

Local Open Scope float_scope.

(** One row of [study.trials_dataframe()]: the two timestamps the loop
    reads, in microseconds.  [None] is NaT, the completion time of a
    trial that has not completed; its run time is NaT whatever its start
    is, so the start is kept as a number. *)
Record trial_row : Type :=
  { datetime_start : Z; datetime_complete : option Z }.

Definition Z2float (z : Z) : float :=
  if (z <? 0)%Z then - PrimFloat.of_uint63 (Uint63.of_Z (- z))
  else PrimFloat.of_uint63 (Uint63.of_Z z).

(** A column of floats; [None] is a missing entry (NaN). *)
Definition series : Type := list (option float).

Definition dropna (s : series) : list float :=
  flat_map (fun x => match x with Some f => [f] | None => [] end) s.

Definition fsum (l : list float) : float := fold_left PrimFloat.add l 0.

Definition count (l : list float) : float := Z2float (Z.of_nat (List.length l)).

(** Arithmetic mean; of no value at all it is NaN. *)
Definition mean (l : list float) : float := fsum l / count l.

(** Sample standard deviation (one degree of freedom taken off); of
    fewer than two values it is NaN. *)
Definition std (l : list float) : float :=
  if (List.length l <=? 1)%nat then nan
  else PrimFloat.sqrt
         (fsum (map (fun x => (x - mean l) * (x - mean l)) l) / (count l - 1)).

(** [Series.mean()] and [Series.std()] skip the missing entries. *)
Definition series_mean (s : series) : float := mean (dropna s).
Definition series_std (s : series) : float := std (dropna s).

(** [s[mask]] *)
Fixpoint select {A} (mask : list bool) (s : list A) : list A :=
  match mask, s with
  | b :: mtl, x :: stl => if b then x :: select mtl stl else select mtl stl
  | _, _ => []
  end.

(** [df["datetime_complete"] - df["datetime_start"]] *)
Definition run_time (r : trial_row) : option Z :=
  match datetime_complete r with
  | Some c => Some (c - datetime_start r)%Z
  | None => None
  end.

(** [x.total_seconds() / 3600.0]; of NaT it is NaN. *)
Definition hours (x : option Z) : option float :=
  match x with
  | Some us => Some (Z2float us / 1e6 / 3600)
  | None => None
  end.

(** What the check after a trial decides. *)
Inductive verdict : Type :=
| Stop
| Continue (estimated_run_time : float).

Section EarlyStopping.

(** The truth value of NaT in [True if x else False] is pandas'
    business; the loop is modelled for either. *)
Variable nat_truthy : bool.

Definition truthy (x : option Z) : bool :=
  match x with
  | Some _ => true
  | None => nat_truthy
  end.

(** Lines 204-234, given the dataframe and the reading
    [time.time() - start_the_clock]. *)
Definition early_stopping (wall_time_secs : float) (df : list trial_row)
  (elapsed : float) : verdict :=
  if (1 <? List.length df)%nat then
    let completed_runs := map (fun r => truthy (datetime_complete r)) df in
    let run_times := map hours (select completed_runs (map run_time df)) in
    let average_run_time := series_mean run_times in
    let sigma_run_time := series_std run_times in
    let estimated_run_time := average_run_time + 2 * sigma_run_time in
    let time_left := wall_time_secs - elapsed in
    if time_left <? estimated_run_time then Stop
    else Continue estimated_run_time
  else
    let time_left := wall_time_secs - elapsed in
    if time_left <? wall_time_secs / 2 then Stop
    else Continue (0.95 * time_left).

(** What [study.optimize] may raise into the loop. *)
Inductive raised : Type :=
| KeyboardInterrupt
| Exception (E : string)
| BaseException (what : string).

Inductive outcome : Type :=
| Returned
| Raises (r : raised).

(** What the world answers during one turn of the loop: the value of
    [successful_trials(study)] at the loop test, how the trial ends,
    and, for the check after it, the dataframe and the clock reading.
    [started] is the time elapsed when the trial is launched; the code
    does not read the clock there. *)
Record iteration : Type :=
  { successful : Z;
    started : float;
    outcome_of : outcome;
    dataframe : list trial_row;
    elapsed_after : float }.

(** A call [study.optimize(objective, n_trials=..., timeout=...)]. *)
Record call : Type := { n_trials : Z; timeout : float }.

Inductive ending : Type :=
| TrialsReached
| Interrupted
| Died
| BudgetExhausted
| Uncaught (what : string)
| Pending (estimated_run_time : float).

Record run : Type :=
  { calls : list call; log : list string; ended : ending }.

Definition stopping_early : string :=
  "Stopping early as estimated run-time exceeds the time remaining on this node.".

(** The [while] loop of lines 187-234, over the answers of the world;
    [Pending] when the answers run out while the loop would go on. *)
Fixpoint optimize_loop (required : Z) (wall_time_secs : float)
  (estimated_run_time : float) (world : list iteration) : run :=
  match world with
  | [] => {| calls := []; log := []; ended := Pending estimated_run_time |}
  | it :: rest =>
      if (successful it <? required)%Z then
        let c := {| n_trials := 1; timeout := estimated_run_time |} in
        match outcome_of it with
        | Raises KeyboardInterrupt =>
            {| calls := [c];
               log := ["Recieved signal to die from keyboard. Exiting."%string];
               ended := Interrupted |}
        | Raises (Exception E) =>
            {| calls := [c];
               log := [("Died due to due to error " ++ E)%string];
               ended := Died |}
        | Raises (BaseException what) =>
            {| calls := [c]; log := []; ended := Uncaught what |}
        | Returned =>
            match early_stopping wall_time_secs (dataframe it) (elapsed_after it) with
            | Stop =>
                {| calls := [c]; log := [stopping_early]; ended := BudgetExhausted |}
            | Continue estimate =>
                let r := optimize_loop required wall_time_secs estimate rest in
                {| calls := c :: calls r; log := log r; ended := ended r |}
            end
        end
      else {| calls := []; log := []; ended := TrialsReached |}
  end.

(** Line 186 and the loop: [elapsed0] is the clock reading of line 186. *)
Definition main_loop (required : Z) (wall_time_secs elapsed0 : float)
  (world : list iteration) : run :=
  optimize_loop required wall_time_secs (wall_time_secs - elapsed0) world.

End EarlyStopping.

(** The completed-trial durations, in hours: of the rows that have a
    completion timestamp. *)
Definition completed_durations (df : list trial_row) : list float :=
  flat_map (fun r => match datetime_complete r with
                     | Some c => [Z2float (c - datetime_start r) / 1e6 / 3600]
                     | None => []
                     end) df.

Definition completed (df : list trial_row) : nat :=
  List.length (filter (fun r => match datetime_complete r with
                                | Some _ => true
                                | None => false
                                end) df).

(** The estimate of lines 213-216 over those durations: their mean plus
    two times their standard deviation. *)
Definition estimate_of (df : list trial_row) : float :=
  mean (completed_durations df) + 2 * std (completed_durations df).

End Budget.


(** ** More exceptions

    What the entry points and the user's training routine can raise
    besides the exceptions above. *)

Inductive error : Type :=
| Python (e : exn)
| UnboundLocalError (name : string)
| OSError (msg : string)
| NotImplementedError
| UserError (name msg : string).

Inductive attempt (A : Type) : Type :=
| Got (a : A)
| Failed (e : error).
Arguments Got {A} a.
Arguments Failed {A} e.

(** ** The wall time of the job ([echo/run.py], lines 165-179) *)

Module WallTime.
Import Config.

(** [n[k]] *)
Definition index (k : string) (n : node) : result node :=
  match n with
  | Map kvs =>
      match dict_get k kvs with
      | Some v => Ok v
      | None => Raise (KeyError k)
      end
  | Leaf _ => Raise (TypeError "indices must be integers, or the object is not subscriptable")
  end.

(** [hyper_config[k1][k2][k3]] *)
Definition index3 (k1 k2 k3 : string) (hyper_config : tree) : result node :=
  match index k1 (Map hyper_config) with
  | Raise e => Raise e
  | Ok n1 =>
      match index k2 n1 with
      | Raise e => Raise e
      | Ok n2 => index k3 n2
      end
  end.

(** What [for option in x] runs over: the items of a list, the characters
    of a string, the keys of a mapping. *)
Definition iterate (x : node) : result (list pyval) :=
  match x with
  | Leaf (VList items) => Ok items
  | Leaf (VStr s) => Ok (map VStr (chars s))
  | Map kvs => Ok (map VStr (keys kvs))
  | Leaf _ => Raise (TypeError "object is not iterable")
  end.

(** ["walltime" in option] *)
Definition has_walltime (option : pyval) : result bool :=
  match option with
  | VStr s => Ok (is_substring "walltime" s)
  | VList items =>
      Ok (existsb (fun x => match x with
                            | VStr s => String.eqb s "walltime"
                            | _ => false
                            end) items)
  | _ => Raise (TypeError "argument is not iterable")
  end.

(** [s.split(sep)] for a non-empty [sep]: [skip] characters of a separator
    just found are still to be passed over, [cur] is the piece read so
    far. *)
Fixpoint split_by (sep s : string) (skip : nat) (cur : string) : list string :=
  match s with
  | EmptyString => [cur]
  | String c tl =>
      match skip with
      | S k => split_by sep tl k cur
      | O =>
          if String.prefix sep s
          then cur :: split_by sep tl (String.length sep - 1) EmptyString
          else split_by sep tl 0 (cur ++ String c EmptyString)%string
      end
  end.

(** [option.split("walltime=")[-1]] *)
Definition after_walltime (option : pyval) : result pyval :=
  match option with
  | VStr s => Ok (VStr (last (split_by "walltime=" s 0 EmptyString) EmptyString))
  | _ => Raise (AttributeError "object has no attribute 'split'")
  end.

(** Lines 170-173: the first option that has [walltime] in it decides;
    [None] is the [False] the loop started with. *)
Fixpoint scan (options : list pyval) : result (option pyval) :=
  match options with
  | [] => Ok None
  | option :: tl =>
      match has_walltime option with
      | Raise e => Raise e
      | Ok true =>
          match after_walltime option with
          | Raise e => Raise e
          | Ok w => Ok (Some w)
          end
      | Ok false => scan tl
      end
  end.

Record found : Type := { wall_time : node; assumed : bool }.

Definition twelve_hours : found :=
  {| wall_time := Leaf (VStr "12:00:00"); assumed := true |}.

(** Lines 166-178; [assumed] tells that the warning of line 175 was
    logged. *)
Definition find_wall_time (hyper_config : tree) : attempt found :=
  if dict_mem "slurm" hyper_config then
    match index3 "slurm" "batch" "t" hyper_config with
    | Raise e => Failed (Python e)
    | Ok t => Got {| wall_time := t; assumed := false |}
    end
  else if dict_mem "pbs" hyper_config then
    match index3 "pbs" "batch" "l" hyper_config with
    | Raise e => Failed (Python e)
    | Ok l =>
        match iterate l with
        | Raise e => Failed (Python e)
        | Ok options =>
            match scan options with
            | Raise e => Failed (Python e)
            | Ok (Some w) => Got {| wall_time := Leaf w; assumed := false |}
            | Ok None => Got twelve_hours
            end
        end
    end
  else Failed (UnboundLocalError "wall_time").

Section GetSec.

(** [get_sec] of [echo/src/reporting.py], which is not among the
    sources. *)
Variable get_sec : node -> attempt Z.

(** Lines 166-179. *)
Definition wall_time_secs (hyper_config : tree) : attempt Z :=
  match find_wall_time hyper_config with
  | Failed e => Failed e
  | Got f => get_sec (wall_time f)
  end.

End GetSec.

End WallTime.

(** ** The export of the best parameters ([echo/report.py], lines 233-256) *)

Module Report.
Import Config Objective.

(** One turn of the loop at lines 238-249: a name with a colon is looked
    up in the best parameters by its last segment and written along its
    path; a name without colon is written only if it is a top-level key of
    the model configuration. *)
Definition export_one (best_params : dict pyval) (model_config : tree)
  (named_parameter : string) : result tree :=
  if has_colon named_parameter then
    let split_name := split_colon named_parameter in
    match getitem (last split_name EmptyString) best_params with
    | Raise e => Raise e
    | Ok best_value => recursive_update split_name model_config (Leaf best_value)
    end
  else if dict_mem named_parameter model_config then
    match getitem named_parameter best_params with
    | Raise e => Raise e
    | Ok best_value => Ok (dict_set named_parameter (Leaf best_value) model_config)
    end
  else Ok model_config.

(** Lines 238-249. *)
Fixpoint export_all (best_params : dict pyval) (model_config : tree)
  (names : list string) : result tree :=
  match names with
  | [] => Ok model_config
  | named_parameter :: tl =>
      match export_one best_params model_config named_parameter with
      | Raise e => Raise e
      | Ok model_config' => export_all best_params model_config' tl
      end
  end.

(** What lines 233-256 do: write [best.yml], or warn. *)
Inductive exported : Type :=
| BestYml (model_config : tree)
| NoModelConfiguration.

(** Lines 233-256.  The model configuration is [None] when the command
    line gave none; an empty mapping is as false as that. *)
Definition save_best (model_config : option tree) (hyper_config : tree)
  (best_params : dict pyval) : result exported :=
  match model_config with
  | None => Ok NoModelConfiguration
  | Some [] => Ok NoModelConfiguration
  | Some (kv :: kvs) =>
      match parameters hyper_config with
      | Raise e => Raise e
      | Ok hyperparameters =>
          match export_all best_params (kv :: kvs) (keys hyperparameters) with
          | Raise e => Raise e
          | Ok best => Ok (BestYml best)
          end
      end
  end.

End Report.

(** ** The adapter as an object ([echo/src/base_objective.py], lines 16-44
       and 137-156) *)

Module Adapter.
Import Config Frame.

(** [s.endswith("/")] *)
Fixpoint ends_with_slash (s : string) : bool :=
  match s with
  | EmptyString => false
  | String c tl =>
      match tl with
      | EmptyString => Ascii.eqb c "/"
      | String _ _ => ends_with_slash tl
      end
  end.

(** [os.path.join(a, b)] on POSIX. *)
Definition path_join (a b : string) : string :=
  if String.prefix "/" b then b
  else if String.eqb a EmptyString || ends_with_slash a then (a ++ b)%string
  else (a ++ "/" ++ b)%string.

(** The name of the results file, lines 31-36; a node id is taken as
    [str] prints it. *)
Definition results_fn_of (save_path : string) (node_id : option string) : string :=
  let dir := path_join save_path "results" in
  match node_id with
  | Some id => path_join dir ("results_" ++ id ++ ".csv")
  | None => path_join dir "results.csv"
  end.

(** The [device] argument: one device or a list, each as [str] prints it. *)
Inductive device_arg : Type :=
| One (d : string)
| Several (ds : list string).

(** Lines 24-27. *)
Definition device_names (device : device_arg) : device_arg :=
  match device with
  | Several ds => Several (map (fun d => ("cuda:" ++ d)%string) ds)
  | One d => One (if String.eqb d "cpu" then "cpu" else ("cuda:" ++ d)%string)
  end.

(** The attributes of the object; [None] is an attribute that has not
    been assigned yet.  [__init__] assigns the first three. *)
Record objective : Type :=
  { config : tree;
    metric : Objective.metric_spec;
    _summon : bool;
    device : option device_arg;
    worker_index : option (option string);
    results : option (dict entry);
    results_fn : option string }.

(** [BaseObjective(config, metric)]; the constructor ignores its [device]
    argument. *)
Definition init (config : tree) (metric : Objective.metric_spec) : objective :=
  {| config := config; metric := metric; _summon := false;
     device := None; worker_index := None; results := None;
     results_fn := None |}.

(** The object and the part of the file system it touches: the regular
    files by path, and the directories made. *)
Record world : Type :=
  { self : objective; files : dict frame; dirs : list string }.

(** [p.split("/")] *)
Fixpoint split_slash (p : string) : list string :=
  match p with
  | EmptyString => [EmptyString]
  | String c tl =>
      if Ascii.eqb c "/" then EmptyString :: split_slash tl
      else match split_slash tl with
           | [] => [String c EmptyString]
           | seg :: segs => String c seg :: segs
           end
  end.

(** The names a path goes through: what stands between its slashes,
    without the empty names and the single dots, which lead nowhere
    else. *)
Definition components (p : string) : list string :=
  filter (fun c => negb (String.eqb c EmptyString || String.eqb c "."))
         (split_slash p).

Fixpoint starts_with (pre l : list string) : bool :=
  match pre, l with
  | [], _ => true
  | x :: pre', y :: l' => String.eqb x y && starts_with pre' l'
  | _ :: _, [] => false
  end.

(** The path [f] is the path [p] or leads to a directory above it. *)
Definition at_or_above (f p : string) : bool :=
  Bool.eqb (String.prefix "/" f) (String.prefix "/" p)
  && match components f with [] => false | _ :: _ => true end
  && starts_with (components f) (components p).

(** What stops [os.makedirs(path, exist_ok=True)]: a regular file at the
    path itself or where one of the directories above it should be.
    Permissions, symbolic links and [..] are left out. *)
Definition in_the_way (path : string) (fs : dict frame) : bool :=
  existsb (fun f => at_or_above f path) (keys fs).

(** [self.config["optuna"]["save_path"]], which [os.path.join] wants to be
    a string. *)
Definition save_path_of (config : tree) : result string :=
  match Objective.getitem "optuna" config with
  | Raise e => Raise e
  | Ok (Leaf _) => Raise (TypeError "conf['optuna'] is not a mapping")
  | Ok (Map o) =>
      match Objective.getitem "save_path" o with
      | Raise e => Raise e
      | Ok (Leaf (VStr s)) => Ok s
      | Ok _ => Raise (TypeError "expected str, bytes or os.PathLike object")
      end
  end.

(** [set_properties(self, node_id, device)]: the attributes are assigned
    in the order of the source, so those assigned before a raise stay.
    [os.makedirs] raises an [OSError] ([FileExistsError] for a file at
    the path, [NotADirectoryError] for one above it) before [results_fn]
    is assigned. *)
Definition set_properties (node_id : option string) (device : device_arg)
  (w : world) : world * attempt unit :=
  let o := self w in
  let o1 := {| config := config o; metric := metric o; _summon := true;
               device := Some (device_names device);
               worker_index := Some node_id;
               results := Some [];
               results_fn := results_fn o |} in
  match save_path_of (config o) with
  | Raise e => ({| self := o1; files := files w; dirs := dirs w |}, Failed (Python e))
  | Ok sp =>
      let save_path := path_join sp "results" in
      if in_the_way save_path (files w)
      then ({| self := o1; files := files w; dirs := dirs w |},
            Failed (OSError (if dict_mem save_path (files w)
                             then "File exists" else "Not a directory")))
      else
        let o2 := {| config := config o; metric := metric o; _summon := true;
                     device := Some (device_names device);
                     worker_index := Some node_id;
                     results := Some [];
                     results_fn := Some (results_fn_of sp node_id) |} in
        ({| self := o2; files := files w; dirs := save_path :: dirs w |}, Got tt)
  end.

Definition with_results (r : dict entry) (fs : dict frame) (w : world) : world :=
  let o := self w in
  {| self := {| config := config o; metric := metric o; _summon := _summon o;
                device := device o; worker_index := worker_index o;
                results := Some r; results_fn := results_fn o |};
     files := fs; dirs := dirs w |}.

(** The first half of [save], up to the frame of line 117. *)
Definition record_only (metric : Objective.metric_spec) (t : Objective.trial)
  (results_dict : dict pyval) : M Objective.adapter unit :=
  Objective.check_metrics metric results_dict ;;
  Objective.record_trial t results_dict ;;
  (fun a => (a, match from_dict (Objective.results a) with
                | Ok _ => Ok tt
                | Raise e => Raise e
                end)).

(** [self.save(trial, results_dict)] on the object: [save] above, run on
    the ledger and on the file at [self.results_fn]; an attribute that is
    missing raises where the source first reads it. *)
Definition save_self (t : Objective.trial) (results_dict : dict pyval)
  (w : world) : world * attempt pyval :=
  let o := self w in
  match results o with
  | None =>
      match Objective.check_metrics (metric o) results_dict
              (Objective.summoned None) with
      | (_, Raise e) => (w, Failed (Python e))
      | (_, Ok _) =>
          (w, Failed (Python (AttributeError "object has no attribute 'results'")))
      end
  | Some r =>
      match results_fn o with
      | Some fn =>
          let a := {| Objective.results := r;
                      Objective.results_file := dict_get fn (files w) |} in
          let run := Objective.save (metric o) t results_dict a in
          let fs := match Objective.results_file (fst run) with
                    | Some df => dict_set fn df (files w)
                    | None => files w
                    end in
          (with_results (Objective.results (fst run)) fs w,
           match snd run with
           | Ok v => Got v
           | Raise e => Failed (Python e)
           end)
      | None =>
          let a := {| Objective.results := r; Objective.results_file := None |} in
          let run := record_only (metric o) t results_dict a in
          (with_results (Objective.results (fst run)) (files w) w,
           match snd run with
           | Ok _ =>
               Failed (Python (AttributeError "object has no attribute 'results_fn'"))
           | Raise e => Failed (Python e)
           end)
      end
  end.


Section Call.

Variable trial_suggest_loader : Objective.trial -> node -> result pyval.

(** [self.train(trial, conf)], the user's training routine: it returns a
    mapping from metric names to values, or raises.  It is taken to leave
    the attributes of the object alone. *)
Variable train : Objective.trial -> tree -> attempt (dict pyval).

(** [__call__(self, trial)] *)
Definition call (t : Objective.trial) (w : world) : world * attempt pyval :=
  let bound :=
    if _summon (self w) then (w, Got tt)
    else set_properties None (One "cpu") w in
  match snd bound with
  | Failed e => (fst bound, Failed e)
  | Got _ =>
      let w1 := fst bound in
      match Objective.update_config trial_suggest_loader (config (self w1)) t with
      | Raise e => (w1, Failed (Python e))
      | Ok c =>
          match train t (Objective.new_conf c) with
          | Failed e => (w1, Failed e)
          | Got result => save_self t result w1
          end
      end
  end.

End Call.

(** [BaseObjective.train]: the base class has no training routine. *)
Definition base_train (t : Objective.trial) (conf : tree)
  : attempt (dict pyval) :=
  Failed NotImplementedError.

End Adapter.

(** ** Sample data *)

Module Sample.
Import Frame Objective.

Definition ledger_row (n : Z) (lr loss : float) : row :=
  [("trial", VInt n); ("lr", VFloat lr); ("val_loss", VFloat loss);
   ("pruned", VInt 0)].

(** A results file with rows for trials 1, 2 and 3. *)
Definition ledger_123 : frame :=
  {| columns := ["trial"; "lr"; "val_loss"; "pruned"];
     rows := [ledger_row 1 0.1 0.9; ledger_row 2 0.2 0.8; ledger_row 3 0.3 0.7] |}.

Definition trial_2 : trial :=
  {| number := 2; params := [("lr", VFloat 0.05)]; should_prune := false |}.

(** A worker whose results file has the three rows and whose in-memory
    ledger is still empty. *)
Definition fresh_worker : adapter := summoned (Some ledger_123).

(** The same worker after it has saved trial 2 once, with loss 0.5. *)
Definition worker_after_trial_2 : adapter :=
  fst (save (Single "val_loss") trial_2 [("val_loss", VFloat 0.5)] fresh_worker).

Definition trial_0 : trial :=
  {| number := 0; params := [("lr", VFloat 0.1)]; should_prune := true |}.

Definition trial_1 : trial :=
  {| number := 1; params := [("lr", VFloat 0.2)]; should_prune := false |}.

Definition two_metrics : dict pyval :=
  [("val_loss", VFloat 0.5); ("val_accuracy", VFloat 0.75)].

(** *** For the budget loop *)

Import Budget.

Definition seconds (n : Z) : Z := (n * 1000000)%Z.
Definition hours_us (n : Z) : Z := seconds (n * 3600).

Definition finished (start stop : Z) : trial_row :=
  {| datetime_start := start; datetime_complete := Some stop |}.

Definition running (start : Z) : trial_row :=
  {| datetime_start := start; datetime_complete := None |}.

(** Three completed trials of 10, 12 and 11 hours. *)
Definition three_trials : list trial_row :=
  [finished 0 (hours_us 10); finished (hours_us 10) (hours_us 22);
   finished (hours_us 22) (hours_us 33)].

(** One completed trial and one that another worker is still running. *)
Definition one_done_one_running : list trial_row :=
  [finished 0 (hours_us 1); running (hours_us 1)].

Definition turn (n : Z) (at_launch : float) (o : outcome)
  (df : list trial_row) (after : float) : iteration :=
  {| successful := n; started := at_launch; outcome_of := o;
     dataframe := df; elapsed_after := after |}.

(** A job of one hour: the first trial takes 1000 seconds and is the only
    one in the study when it returns; the second is launched right
    after. *)
Definition two_turns : list iteration :=
  [turn 0 0%float Returned [finished 0 (seconds 1000)] 1000%float;
   turn 1 1000%float Returned
     [finished 0 (seconds 1000); finished (seconds 1000) (seconds 2000)]
     2000%float].


(** The second trial fails. *)
Definition failing : list iteration :=
  [turn 0 0%float Returned [finished 0 (seconds 1000)] 1000%float;
   turn 1 1000%float (Raises (Exception "CUDA out of memory")) [] 1500%float;
   turn 1 1500%float Returned [] 2000%float].

(** A trial returns after 2000 seconds of a one-hour job, while another
    worker's trial is still running. *)
Definition late_turn : list iteration :=
  [turn 0 0%float Returned one_done_one_running 2000%float;
   turn 1 2000%float Returned one_done_one_running 3000%float].

(** The last hour of a twelve-hour job: the third trial of the study has
    just returned, eleven hours into the job, and the next one is
    launched. *)
Definition last_hour : list iteration :=
  [turn 2 0%float Returned three_trials 39600%float;
   turn 3 39600%float Returned three_trials 43000%float].

(** *** For [update_config] *)

Import Config.

Definition float_spec (name : string) : node :=
  Map [("type", Leaf (VStr "float"));
       ("settings", Map [("name", Leaf (VStr name));
                         ("low", Leaf (VFloat 0.0001));
                         ("high", Leaf (VFloat 0.1))])].

(** A model configuration with the learning rate under [model], and a
    study that declares it as plain [lr]. *)
Definition config_plain_name : tree :=
  [("model", Map [("lr", Leaf (VFloat 0.01)); ("layers", Leaf (VInt 3))]);
   ("optuna", Map [("parameters", Map [("lr", float_spec "lr")])])].

(** The same, declared as [model:lr]. *)
Definition config_path_name : tree :=
  [("model", Map [("lr", Leaf (VFloat 0.01)); ("layers", Leaf (VInt 3))]);
   ("optuna", Map [("parameters", Map [("model:lr", float_spec "lr")])])].

(** A trial that suggests 0.05 whatever it is asked. *)
Definition suggest_constant (t : trial) (spec : node) : result pyval :=
  Ok (VFloat 0.05).

(** *** More results files and trials *)


(** A trial of a conditional search space: no [lr] this time. *)
Definition trial_3_without_lr : trial :=
  {| number := 3; params := [("momentum", VFloat 0.9)]; should_prune := false |}.

(** *** Scheduler sections *)

(** A PBS section in the usual shape: a list of resource options. *)
Definition pbs_config : tree :=
  [("save_path", Leaf (VStr "/glade/scratch/echo"));
   ("pbs", Map [("batch",
                 Map [("l", Leaf (VList [VStr "select=1:ncpus=8:ngpus=1";
                                         VStr "walltime=06:00:00"]));
                      ("A", Leaf (VStr "NAML0001"))])])].

(** The same with the resources written as one string. *)
Definition pbs_config_one_string : tree :=
  [("save_path", Leaf (VStr "/glade/scratch/echo"));
   ("pbs", Map [("batch",
                 Map [("l", Leaf (VStr "select=1:ncpus=8,walltime=06:00:00"));
                      ("A", Leaf (VStr "NAML0001"))])])].

(** No scheduler section at all. *)
Definition local_config : tree :=
  [("save_path", Leaf (VStr "/tmp/echo"))].

(** *** Best parameters *)

(** The best parameters of a study, under the names optuna knows. *)
Definition best_lr_layers : dict pyval :=
  [("lr", VFloat 0.003); ("layers", VInt 4)].

(** A model configuration for the report. *)
Definition model_for_report : tree :=
  [("model", Map [("lr", Leaf (VFloat 0.01))]); ("layers", Leaf (VInt 3))].

(** *** Adapters *)

(** A configuration that says where to save. *)
Definition config_with_save_path : tree :=
  [("model", Map [("lr", Leaf (VFloat 0.01))]);
   ("optuna", Map [("save_path", Leaf (VStr "/glade/scratch/echo"));
                   ("parameters", Map [("model:lr", float_spec "lr")])])].

(** A fresh object in an empty file system. *)
Definition unbound_world : Adapter.world :=
  {| Adapter.self := Adapter.init config_with_save_path (Single "val_loss");
     Adapter.files := []; Adapter.dirs := [] |}.

(** The same object where a regular file has the name of the save
    path. *)
Definition blocked_world : Adapter.world :=
  {| Adapter.self := Adapter.init config_with_save_path (Single "val_loss");
     Adapter.files := [("/glade/scratch/echo", {| columns := []; rows := [] |})];
     Adapter.dirs := [] |}.

(** A training routine that reports a loss taken from the learning
    rate. *)
Definition train_constant (t : trial) (conf : tree) : attempt (dict pyval) :=
  Got [("val_loss", VFloat 0.25); ("epochs", VInt 10)].

(** The world after the first call on the fresh object. *)
Definition bound_world : Adapter.world :=
  fst (Adapter.call suggest_constant train_constant trial_0 unbound_world).

End Sample.

(** * Properties *)

(** ** The path updater and the reader *)

Section ConfigFacts.
Import Config.

Lemma recursive_update_empty (path : list string) (value : node) :
  path <> [] -> recursive_update path empty value = Ok (chain path value).
Proof.
  unfold empty.
  induction path as [|k rest IH]; intros Hne; [congruence|].
  destruct rest as [|k' rest']; [reflexivity|].
  specialize (IH ltac:(discriminate)).
  change (recursive_update (k :: k' :: rest') [] value)
    with (match recursive_update (k' :: rest') [] value with
          | Ok sub' => Ok (dict_set k (Map sub') [])
          | Raise e => Raise e
          end).
  rewrite IH. reflexivity.
Qed.

Lemma flatten_chain (path : list string) (v : pyval) :
  path <> [] ->
  forall prefix,
    flatten_node prefix (Map (chain path (Leaf v))) = [(prefix ++ path, v)].
Proof.
  induction path as [|k rest IH]; intros Hne prefix; [congruence|].
  destruct rest as [|k' rest'].
  - reflexivity.
  - cbn [chain flatten_node].
    cbn [chain flatten_node] in IH.
    rewrite IH by discriminate.
    rewrite <- app_assoc. reflexivity.
Qed.

(** C3, as amended: for every non-empty path P and every value V that is
    not a mapping, updating the empty tree with P and V and then
    flattening yields exactly one pair, whose path is P and whose value
    is V. *)
Theorem update_then_flatten_leaf (P : list string) (v : pyval) :
  P <> [] ->
  exists t,
    recursive_update P empty (Leaf v) = Ok t
    /\ recursive_config_reader t = [(P, v)].
Proof.
  intros Hne. exists (chain P (Leaf v)). split.
  - now apply recursive_update_empty.
  - unfold recursive_config_reader. now rewrite flatten_chain.
Qed.

Lemma update_then_flatten_leaf_witness :
  ["model"; "optimizer"; "lr"] <> []
  /\ exists t,
       recursive_update ["model"; "optimizer"; "lr"] empty (Leaf (VInt 3)) = Ok t
       /\ recursive_config_reader t = [(["model"; "optimizer"; "lr"], VInt 3)].
Proof.
  split; [discriminate|].
  apply (update_then_flatten_leaf ["model"; "optimizer"; "lr"] (VInt 3)).
  discriminate.
Defined.

(** C3 as stated fails when the value is itself a mapping: the reader
    descends into it, and an empty mapping has no leaf at all. *)
Lemma update_then_flatten_mapping_value :
  ~ (forall (P : list string) (V : node),
        P <> [] ->
        exists t,
          recursive_update P empty V = Ok t
          /\ exists v, recursive_config_reader t = [(P, v)] /\ V = Leaf v).
Proof.
  intros H.
  destruct (H ["a"] (Map []) ltac:(discriminate)) as (t & Hup & v & Hfl & _).
  cbn in Hup. injection Hup as <-.
  discriminate Hfl.
Qed.

(** What the code does at that input: no pair. *)
Example update_then_flatten_empty_mapping :
  recursive_update ["a"] empty (Map []) = Ok [("a", Map [])]
  /\ recursive_config_reader [("a", Map [])] = [].
Proof. split; reflexivity. Qed.

End ConfigFacts.

(** ** The monad *)

Section MonadFacts.
Context {S : Type}.

(** A sequence ends where its first part raised, or where the rest ends. *)
Lemma bind_inv {A B} (c : M S A) (k : A -> M S B) s s' out :
  bind c k s = (s', out) ->
  (exists e, c s = (s', Raise e) /\ out = Raise e)
  \/ (exists s1 a, c s = (s1, Ok a) /\ k a s1 = (s', out)).
Proof.
  unfold bind. destruct (c s) as [s1 [a|e]]; intros H.
  - right. now exists s1, a.
  - left. exists e. now inversion H.
Qed.

Lemma bind_ok {A B} (c : M S A) (k : A -> M S B) s s1 a :
  c s = (s1, Ok a) -> bind c k s = k a s1.
Proof. unfold bind. now intros ->. Qed.

Lemma bind_raise {A B} (c : M S A) (k : A -> M S B) s s1 e :
  c s = (s1, Raise e) -> bind c k s = (s1, Raise e).
Proof. unfold bind. now intros ->. Qed.

End MonadFacts.

(** ** [save]: the metric check *)

Section SaveChecks.
Import Frame Objective.

Lemma assert_metric_present m rd (a : adapter) :
  dict_mem m rd = true -> assert_metric m rd a = (a, Ok tt).
Proof. unfold assert_metric. now intros ->. Qed.

Lemma assert_metric_absent m rd (a : adapter) :
  dict_mem m rd = false ->
  assert_metric m rd a = (a, Raise (AssertionError (missing_metric m))).
Proof. unfold assert_metric. now intros ->. Qed.

(** The check raises for the first required name that is absent, and
    touches nothing. *)
Lemma check_list_absent rd (a : adapter) ms :
  (exists m, In m ms /\ dict_mem m rd = false) ->
  exists m, In m ms /\ dict_mem m rd = false
            /\ for_each (fun m => assert_metric m rd) ms a
               = (a, Raise (AssertionError (missing_metric m))).
Proof.
  induction ms as [|m0 ms IH]; intros (m & Hin & Hm); [destruct Hin|].
  cbn [for_each].
  destruct (dict_mem m0 rd) eqn:E0.
  - destruct Hin as [->|Hin]; [congruence|].
    destruct IH as (m' & Hin' & Hm' & Hrun); [now exists m|].
    exists m'. repeat split; [now right|assumption|].
    erewrite bind_ok by now apply assert_metric_present.
    exact Hrun.
  - exists m0. repeat split; [now left|assumption|].
    erewrite bind_raise by now apply assert_metric_absent.
    reflexivity.
Qed.

(** C1: when the results mapping lacks a required metric (the one name,
    or any name of the list), [save] raises the missing-metric error for
    an absent name and leaves the adapter as it was: neither the
    in-memory ledger nor the results file changes. *)
Theorem save_missing_metric metric t rd (a : adapter) :
  (exists m, In m (required metric) /\ dict_mem m rd = false) ->
  exists m, In m (required metric) /\ dict_mem m rd = false
            /\ save metric t rd a
               = (a, Raise (AssertionError (missing_metric m))).
Proof.
  intros H.
  assert (exists m, In m (required metric) /\ dict_mem m rd = false
                    /\ check_metrics metric rd a
                       = (a, Raise (AssertionError (missing_metric m))))
    as (m & Hin & Hm & Hchk).
  { destruct metric as [m0|ms]; cbn [required check_metrics] in *.
    - destruct H as (m & [<-|[]] & Hm).
      exists m0. repeat split; [now left|assumption|].
      now apply assert_metric_absent.
    - now apply check_list_absent. }
  exists m. repeat split; [assumption..|].
  unfold save. now erewrite bind_raise by exact Hchk.
Qed.

End SaveChecks.

(** ** Dictionaries *)

Section DictFacts.
Context {A : Type}.

Lemma dict_get_set_same (k : string) (v : A) (d : dict A) :
  dict_get k (dict_set k v d) = Some v.
Proof.
  induction d as [|[k' v'] tl IH]; cbn.
  - now rewrite String.eqb_refl.
  - destruct (String.eqb k k') eqn:E; cbn; rewrite E; [reflexivity|exact IH].
Qed.

Lemma dict_get_set_other (k k' : string) (v : A) (d : dict A) :
  k <> k' -> dict_get k (dict_set k' v d) = dict_get k d.
Proof.
  intros Hne. induction d as [|[k0 v0] tl IH]; cbn.
  - apply String.eqb_neq in Hne. now rewrite Hne.
  - destruct (String.eqb k' k0) eqn:E; cbn.
    + apply String.eqb_eq in E. subst k0.
      apply String.eqb_neq in Hne. now rewrite Hne.
    + now rewrite IH.
Qed.

Lemma dict_get_map {B} (f : A -> B) (k : string) (d : dict A) :
  dict_get k (map (fun kv => (fst kv, f (snd kv))) d)
  = option_map f (dict_get k d).
Proof.
  induction d as [|[k' v'] tl IH]; cbn; [reflexivity|].
  now destruct (String.eqb k k').
Qed.

Lemma dict_get_In (k : string) (v : A) (d : dict A) :
  dict_get k d = Some v -> In (k, v) d.
Proof.
  induction d as [|[k' v'] tl IH]; cbn; [discriminate|].
  destruct (String.eqb k k') eqn:E.
  - apply String.eqb_eq in E. intros [= ->]. left. now subst.
  - intros H. right. now apply IH.
Qed.

Lemma dict_get_keys (k : string) (d : dict A) :
  dict_get k d = None <-> ~ In k (keys d).
Proof.
  induction d as [|[k' v'] tl IH]; cbn; [tauto|].
  destruct (String.eqb k k') eqn:E.
  - apply String.eqb_eq in E. split; [discriminate|]. intros H. exfalso. apply H. now left.
  - apply String.eqb_neq in E. rewrite IH. split.
    + intros H [->|H']; [congruence|contradiction].
    + intros H H'. apply H. now right.
Qed.

End DictFacts.

(** ** [save]: the in-memory ledger *)

Section Recording.
Import Frame Objective.

Lemma append_inv k v (a a' : adapter) out :
  append k v a = (a', out) ->
  results_file a' = results_file a
  /\ (forall e, out = Raise e -> a' = a /\ exists msg, e = AttributeError msg)
  /\ (out = Ok tt ->
      forall k', dict_get k' (results a')
                 = if String.eqb k' k
                   then Some (Col (column k (results a) ++ [v]))
                   else dict_get k' (results a)).
Proof.
  assert (Hset : forall (d : dict entry) e k',
             dict_get k' (dict_set k e d)
             = if String.eqb k' k then Some e else dict_get k' d).
  { intros d e k'. destruct (String.eqb k' k) eqn:Ek.
    - apply String.eqb_eq in Ek. subst k'. apply dict_get_set_same.
    - apply String.eqb_neq in Ek. now apply dict_get_set_other. }
  unfold append, column.
  destruct (dict_get k (results a)) as [[l|s]|] eqn:E; intros [= <- <-]; cbn.
  - split; [reflexivity|split; [discriminate|]]. intros _ k'. apply Hset.
  - split; [reflexivity|split; [|discriminate]].
    intros e [= <-]. split; [reflexivity|eauto].
  - split; [reflexivity|split; [discriminate|]]. intros _ k'. apply Hset.
Qed.

(** A run of appends either raises [AttributeError], or extends each
    column by what the run appends to it. *)
Lemma append_all_inv items : forall (a a' : adapter) out,
  append_all items a = (a', out) ->
  results_file a' = results_file a
  /\ (forall e, out = Raise e -> exists msg, e = AttributeError msg)
  /\ (out = Ok tt ->
      forall k, dict_get k (results a')
                = match appended k items with
                  | [] => dict_get k (results a)
                  | vs => Some (Col (column k (results a) ++ vs))
                  end).
Proof.
  unfold append_all.
  induction items as [|[k0 v0] tl IH]; intros a a' out H.
  - cbn in H. injection H as <- <-.
    split; [reflexivity|split; [discriminate|reflexivity]].
  - cbn [for_each fst snd] in H.
    apply bind_inv in H as [(e & H0 & ->)|(a1 & [] & H0 & H1)].
    + apply append_inv in H0 as (Hf & He & _).
      split; [assumption|split; [|discriminate]].
      intros e' [= <-]. now apply He.
    + apply append_inv in H0 as (Hf0 & _ & Hok0). specialize (Hok0 eq_refl).
      apply IH in H1 as (Hf1 & He1 & Hok1).
      split; [congruence|split; [assumption|]].
      intros -> k. rewrite (Hok1 eq_refl k).
      unfold appended at 2. cbn [filter fst snd].
      unfold column at 1. rewrite (Hok0 k).
      rewrite (String.eqb_sym k0 k).
      destruct (String.eqb k k0) eqn:Ek.
      * apply String.eqb_eq in Ek. subst k0. cbn [map snd].
        fold (appended k tl).
        destruct (appended k tl); [reflexivity|].
        now rewrite <- app_assoc.
      * fold (appended k tl). reflexivity.
Qed.

Lemma record_trial_unfold t rd :
  record_trial t rd
  = (append "trial" (VInt (number t)) ;;
     append_all (params t) ;;
     append_all rd ;;
     setitem "pruned" (Scalar (pruned_flag t))).
Proof. reflexivity. Qed.

(** Recording raises nothing but [AttributeError], leaves the file
    alone, and ends by storing the flag as a scalar. *)
Lemma record_trial_inv t rd (a a' : adapter) out :
  record_trial t rd a = (a', out) ->
  results_file a' = results_file a
  /\ (forall e, out = Raise e -> exists msg, e = AttributeError msg)
  /\ (out = Ok tt ->
      dict_get "pruned" (results a') = Some (Scalar (pruned_flag t))).
Proof.
  rewrite record_trial_unfold. intros H.
  apply bind_inv in H as [(e & H0 & ->)|(a1 & [] & H0 & H)].
  { apply append_inv in H0 as (Hf & He & _).
    split; [assumption|split; [|discriminate]].
    intros e' [= <-]. now apply He. }
  apply append_inv in H0 as (Hf0 & _ & _).
  apply bind_inv in H as [(e & H1 & ->)|(a2 & [] & H1 & H)].
  { apply append_all_inv in H1 as (Hf & He & _).
    split; [congruence|split; [|discriminate]].
    intros e' [= <-]. now apply He. }
  apply append_all_inv in H1 as (Hf1 & _ & _).
  apply bind_inv in H as [(e & H2 & ->)|(a3 & [] & H2 & H)].
  { apply append_all_inv in H2 as (Hf & He & _).
    split; [congruence|split; [|discriminate]].
    intros e' [= <-]. now apply He. }
  apply append_all_inv in H2 as (Hf2 & _ & _).
  unfold setitem in H. injection H as <- <-. cbn.
  split; [congruence|split; [discriminate|]].
  intros _. apply dict_get_set_same.
Qed.

End Recording.

(** ** [save]: the results file *)

Section Persisting.
Import Frame Objective.

Lemma map_result_raise {A B} (f : A -> result B) l e :
  map_result f l = Raise e -> exists a, In a l /\ f a = Raise e.
Proof.
  induction l as [|a tl IH]; cbn; [discriminate|].
  destruct (f a) as [b|e0] eqn:E.
  - destruct (map_result f tl) as [bs|e1]; [discriminate|].
    intros [= <-]. destruct (IH eq_refl) as (a' & Hin & Ha').
    exists a'. split; [now right|assumption].
  - intros [= <-]. exists a. split; [now left|assumption].
Qed.

Lemma from_dict_raise d e :
  from_dict d = Raise e -> exists msg, e = ValueError msg.
Proof.
  unfold from_dict. destruct d as [|kv d]; [discriminate|].
  destruct (col_lengths (kv :: d)) as [|n ns].
  - intros [= <-]. eauto.
  - destruct (forallb (Nat.eqb n) ns); [discriminate|].
    intros [= <-]. eauto.
Qed.

Lemma read_csv_raise file usecols e :
  read_csv file usecols = Raise e -> exists msg, e = ValueError msg.
Proof.
  unfold read_csv.
  destruct (forallb _ usecols); [discriminate|]. intros [= <-]. eauto.
Qed.

Lemma trial_of_raise r e :
  trial_of r = Raise e -> past_recording (@Raise unit e).
Proof.
  unfold trial_of.
  destruct (dict_get "trial" r) as [[]|]; intros [= <-]; exact I.
Qed.

Lemma dedup_sort_raise df e :
  dedup_sort df = Raise e -> past_recording (@Raise unit e).
Proof.
  unfold dedup_sort, keyed.
  destruct (map_result _ (rows df)) as [krs|e0] eqn:E; [discriminate|].
  intros [= <-].
  apply map_result_raise in E as (r & _ & Hr).
  destruct (trial_of r) as [z|e1] eqn:Et; [discriminate|].
  injection Hr as <-. now apply trial_of_raise in Et.
Qed.

(** Persisting leaves the in-memory ledger alone, raises none of the
    errors of the earlier phases, and on success has written the merged,
    deduplicated, sorted frame. *)
Lemma persist_inv (a a' : adapter) out :
  persist a = (a', out) ->
  results a' = results a
  /\ past_recording out
  /\ (out = Ok tt ->
      exists mdf full df,
        from_dict (results a) = Ok mdf
        /\ merged (results_file a) mdf full
        /\ dedup_sort full = Ok df
        /\ results_file a' = Some df).
Proof.
  unfold persist, bind, lift, ret, to_csv, merged.
  destruct (from_dict (results a)) as [mdf|e] eqn:Efd.
  2:{ intros [= <- <-]. apply from_dict_raise in Efd as [msg ->].
      split; [reflexivity|split; [exact I|discriminate]]. }
  destruct (results_file a) as [file|] eqn:Efile.
  - destruct (read_csv file (columns mdf)) as [other|e] eqn:Erd.
    2:{ intros [= <- <-]. apply read_csv_raise in Erd as [msg ->].
        split; [reflexivity|split; [exact I|discriminate]]. }
    destruct (dedup_sort (concat mdf other)) as [df|e] eqn:Eds.
    2:{ intros [= <- <-]. apply dedup_sort_raise in Eds.
        split; [reflexivity|split; [exact Eds|discriminate]]. }
    intros [= <- <-]. cbn. split; [reflexivity|split; [exact I|]].
    intros _. exists mdf, (concat mdf other), df. eauto 10.
  - destruct (dedup_sort mdf) as [df|e] eqn:Eds.
    2:{ intros [= <- <-]. apply dedup_sort_raise in Eds.
        split; [reflexivity|split; [exact Eds|discriminate]]. }
    intros [= <- <-]. cbn. split; [reflexivity|split; [exact I|]].
    intros _. exists mdf, mdf, df. eauto 10.
Qed.

(** Reading the ledger back for the return value keeps every entry it
    has; a read adds an empty list only for a key it lacks. *)
Lemma lookup_inv k (a a' : adapter) out :
  lookup k a = (a', out) ->
  results_file a' = results_file a
  /\ (exists e, out = Ok e /\ dict_get k (results a') = Some e)
  /\ (forall k' e', dict_get k' (results a) = Some e' ->
                    dict_get k' (results a') = Some e').
Proof.
  unfold lookup. destruct (dict_get k (results a)) as [e|] eqn:E;
    intros [= <- <-]; cbn.
  - repeat split; eauto.
  - repeat split.
    + exists (Col []). split; [reflexivity|apply dict_get_set_same].
    + intros k' e' H. rewrite dict_get_set_other; [assumption|congruence].
Qed.

Lemma lookups_inv ms : forall (a a' : adapter) out,
  map_m lookup ms a = (a', out) ->
  results_file a' = results_file a
  /\ (exists es, out = Ok es
                 /\ Forall2 (fun m e => dict_get m (results a') = Some e) ms es)
  /\ (forall k' e', dict_get k' (results a) = Some e' ->
                    dict_get k' (results a') = Some e').
Proof.
  induction ms as [|m ms IH]; intros a a' out H.
  - cbn in H. injection H as <- <-. repeat split; eauto.
  - cbn [map_m] in H.
    apply bind_inv in H as [(e & H0 & ->)|(a1 & e & H0 & H)].
    { apply lookup_inv in H0 as (_ & (e0 & [=] & _) & _). }
    apply lookup_inv in H0 as (Hf0 & (e0 & [= <-] & Hget0) & Hkeep0).
    apply bind_inv in H as [(e1 & H1 & ->)|(a2 & es & H1 & H)].
    { apply IH in H1 as (_ & (es & [=] & _) & _). }
    apply IH in H1 as (Hf1 & (es' & [= <-] & Hall) & Hkeep1).
    cbn in H. injection H as <- <-.
    repeat split; [congruence| |eauto].
    exists (e :: es). split; [reflexivity|]. constructor; eauto.
Qed.

End Persisting.

(** ** [save]: what it stores and what it returns *)

Section SaveFacts.
Import Frame Objective.

Lemma check_metrics_inv metric rd (a a' : adapter) out :
  check_metrics metric rd a = (a', out) ->
  a' = a /\ (forall e, out = Raise e -> exists msg, e = AssertionError msg).
Proof.
  assert (Hone : forall m (a a' : adapter) out,
             assert_metric m rd a = (a', out) ->
             a' = a /\ (forall e, out = Raise e -> exists msg, e = AssertionError msg)).
  { intros m b b' o. unfold assert_metric.
    destruct (dict_mem m rd); intros [= <- <-];
      (split; [reflexivity|]); [discriminate|intros e [= <-]; eauto]. }
  destruct metric as [m|ms]; cbn [check_metrics]; [apply Hone|].
  revert a a' out. induction ms as [|m ms IH]; intros a a' out; cbn [for_each].
  - intros [= <- <-]. split; [reflexivity|discriminate].
  - intros H. apply bind_inv in H as [(e & H0 & ->)|(a1 & [] & H0 & H)].
    + now apply Hone in H0.
    + apply Hone in H0 as [-> _]. now apply IH.
Qed.

(** The frame of a ledger: one row per index below the common length of
    its lists. *)
Lemma from_dict_inv d df :
  from_dict d = Ok df ->
  columns df = keys d
  /\ exists n, rows df = map (row_at d) (seq 0 n)
               /\ forall k l, In (k, Col l) d -> List.length l = n.
Proof.
  unfold from_dict. destruct d as [|kv d]; [intros [= <-]|].
  { split; [reflexivity|]. exists 0%nat. split; [reflexivity|]. intros k l []. }
  destruct (col_lengths (kv :: d)) as [|n ns] eqn:El; [discriminate|].
  destruct (forallb (Nat.eqb n) ns) eqn:Eall; [|discriminate].
  intros [= <-]. split; [reflexivity|]. exists n. split; [reflexivity|].
  intros k l Hin.
  assert (Hl : In (List.length l) (col_lengths (kv :: d))).
  { unfold col_lengths. apply in_flat_map. exists (k, Col l).
    split; [assumption|now left]. }
  rewrite El in Hl. destruct Hl as [Hl|Hl]; [now symmetry|].
  rewrite forallb_forall in Eall. specialize (Eall _ Hl).
  apply Nat.eqb_eq in Eall. now symmetry.
Qed.

Lemma row_at_get d i k :
  dict_get k (row_at d i) = option_map (cell_at i) (dict_get k d).
Proof. apply dict_get_map. Qed.

(** A call that got past the recording phase has recorded the trial,
    attempted to persist, and kept every entry it recorded. *)
Lemma save_inv metric t rd (a a' : adapter) out :
  save metric t rd a = (a', out) ->
  past_recording out ->
  exists a1 a2 pout,
    record_trial t rd a = (a1, Ok tt)
    /\ persist a1 = (a2, pout)
    /\ results_file a' = results_file a2
    /\ (forall k e, dict_get k (results a1) = Some e ->
                    dict_get k (results a') = Some e)
    /\ (forall v, out = Ok v -> pout = Ok tt).
Proof.
  unfold save. intros H Hpast.
  apply bind_inv in H as [(e & H0 & ->)|(a0 & [] & H0 & H)].
  { apply check_metrics_inv in H0 as [_ He].
    destruct (He e eq_refl) as [msg ->]. destruct Hpast. }
  apply check_metrics_inv in H0 as [-> _].
  apply bind_inv in H as [(e & H1 & ->)|(a1 & [] & H1 & H)].
  { apply record_trial_inv in H1 as (_ & He & _).
    destruct (He e eq_refl) as [msg ->]. destruct Hpast. }
  exists a1.
  apply bind_inv in H as [(e & H2 & ->)|(a2 & [] & H2 & H)].
  { exists a', (Raise e).
    split; [assumption|split; [assumption|split; [reflexivity|]]].
    split; [|discriminate].
    apply persist_inv in H2 as (Hres & _ & _). intros k e0. now rewrite Hres. }
  exists a2, (Ok tt). split; [assumption|split; [assumption|]].
  pose proof (persist_inv _ _ _ H2) as (Hres & _ & _).
  destruct metric as [m|ms].
  - unfold lift in H. injection H as <- <-.
    split; [reflexivity|split; [|reflexivity]].
    intros k e. now rewrite Hres.
  - apply bind_inv in H as [(e & H3 & ->)|(a3 & es & H3 & H)].
    { apply lookups_inv in H3 as (_ & (es & [=] & _) & _). }
    apply lookups_inv in H3 as (Hf & _ & Hkeep).
    cbn in H. injection H as <- <-.
    split; [assumption|split; [|reflexivity]].
    intros k e Hk. apply Hkeep. now rewrite Hres.
Qed.


End SaveFacts.

(** ** Deduplicating and sorting *)

Section FrameFacts.
Import Frame.

Lemma mem_Z_In z l : mem_Z z l = true <-> In z l.
Proof.
  unfold mem_Z. rewrite existsb_exists. split.
  - intros (x & Hin & Hx). apply Z.eqb_eq in Hx. now subst.
  - intros H. exists z. split; [assumption|apply Z.eqb_refl].
Qed.

(** Each keyed row carries its own trial number. *)
Lemma keyed_inv rs : forall krs,
  keyed rs = Ok krs ->
  map snd krs = rs
  /\ Forall (fun kr => trial_of (snd kr) = Ok (fst kr)) krs.
Proof.
  unfold keyed.
  induction rs as [|r rs IH]; intros krs; cbn [map_result].
  - intros [= <-]. split; [reflexivity|constructor].
  - destruct (trial_of r) as [z|e] eqn:Ez; [|discriminate].
    destruct (map_result _ rs) as [krs'|e]; [|discriminate].
    intros [= <-]. destruct (IH _ eq_refl) as [Hs Hf].
    split; [cbn; now rewrite Hs|now constructor].
Qed.

Lemma trial_numbers_keyed krs :
  Forall (fun kr => trial_of (snd kr) = Ok (fst kr)) krs ->
  map_result trial_of (map snd krs) = Ok (map fst krs).
Proof.
  induction 1 as [|kr krs Hkr _ IH]; [reflexivity|].
  cbn. now rewrite Hkr, IH.
Qed.

(** [drop_duplicates] keeps rows of the frame, *)
Lemma drop_dups_incl rs : forall seen x,
  In x (drop_dups seen rs) -> In x rs.
Proof.
  induction rs as [|[z r] tl IH]; intros seen x; cbn; [tauto|].
  destruct (mem_Z z seen).
  - intros H. right. eapply IH, H.
  - intros [<-|H]; [now left|right; eapply IH, H].
Qed.

(** no trial number twice, *)
Lemma drop_dups_fresh rs : forall seen,
  NoDup (map fst (drop_dups seen rs))
  /\ forall z, In z (map fst (drop_dups seen rs)) -> ~ In z seen.
Proof.
  induction rs as [|[z r] tl IH]; intros seen; cbn.
  - split; [constructor|intros z []].
  - destruct (mem_Z z seen) eqn:Ez; [apply IH|].
    destruct (IH (z :: seen)) as [Hnd Hfresh]. cbn. split.
    + constructor; [|assumption].
      intros Hin. apply (Hfresh _ Hin). now left.
    + intros z' [<-|Hin].
      * intros Hs. apply mem_Z_In in Hs. congruence.
      * intros Hs. apply (Hfresh _ Hin). now right.
Qed.

(** and, of each trial number, the first row. *)
Lemma drop_dups_first pre : forall seen z r post,
  ~ In z seen -> ~ In z (map fst pre) ->
  In (z, r) (drop_dups seen (pre ++ (z, r) :: post)).
Proof.
  induction pre as [|[z0 r0] pre IH]; intros seen z r post Hseen Hpre; cbn.
  - destruct (mem_Z z seen) eqn:Ez; [apply mem_Z_In in Ez; contradiction|].
    now left.
  - cbn in Hpre.
    destruct (mem_Z z0 seen).
    + apply IH; [assumption|tauto].
    + right. apply IH; [|tauto]. intros [->|H]; tauto.
Qed.

Lemma insert_row_In x l y : In y (insert_row x l) <-> y = x \/ In y l.
Proof.
  induction l as [|h tl IH]; cbn; [intuition|].
  destruct (fst x <=? fst h)%Z; cbn; [intuition|].
  rewrite IH. intuition.
Qed.

Lemma sort_rows_In l y : In y (sort_rows l) <-> In y l.
Proof.
  induction l as [|h tl IH]; cbn; [tauto|].
  rewrite insert_row_In, IH. intuition.
Qed.

Lemma In_map_fst_sort l z :
  In z (map fst (sort_rows l)) <-> In z (map fst l).
Proof.
  rewrite !in_map_iff. split; intros (x & Hx & Hin); exists x;
    (split; [assumption|now apply sort_rows_In]).
Qed.

Lemma insert_row_sorted x l :
  StronglySorted Z.lt (map fst l) ->
  ~ In (fst x) (map fst l) ->
  StronglySorted Z.lt (map fst (insert_row x l)).
Proof.
  induction l as [|h tl IH]; intros Hs Hx; cbn.
  - repeat constructor.
  - cbn in Hs, Hx. inversion Hs as [|? ? Htl Hall]; subst.
    destruct (fst x <=? fst h)%Z eqn:E; cbn.
    + apply Z.leb_le in E.
      assert (Hlt : (fst x < fst h)%Z) by (assert (fst h <> fst x) by tauto; lia).
      constructor; [assumption|].
      constructor; [assumption|].
      eapply Forall_impl; [|exact Hall]. cbn. intros; lia.
    + apply Z.leb_gt in E.
      constructor; [apply IH; tauto|].
      apply Forall_forall. intros z Hz.
      apply in_map_iff in Hz as (y & <- & Hy).
      apply insert_row_In in Hy as [->|Hy]; [assumption|].
      rewrite Forall_forall in Hall. apply Hall. now apply in_map.
Qed.

(** Sorting rows that have distinct trial numbers puts the numbers in
    strictly ascending order. *)
Lemma sort_rows_sorted l :
  NoDup (map fst l) -> StronglySorted Z.lt (map fst (sort_rows l)).
Proof.
  induction l as [|h tl IH]; cbn; intros Hnd; [constructor|].
  inversion Hnd as [|? ? Hh Htl]; subst.
  apply insert_row_sorted; [now apply IH|].
  now rewrite In_map_fst_sort.
Qed.

(** What [drop_duplicates] and [sort_values] leave: rows of the frame,
    their trial numbers strictly ascending. *)
Lemma dedup_sort_inv full df :
  dedup_sort full = Ok df ->
  exists krs,
    keyed (rows full) = Ok krs
    /\ rows df = map snd (sort_rows (drop_dups [] krs))
    /\ trial_numbers df = Ok (map fst (sort_rows (drop_dups [] krs)))
    /\ StronglySorted Z.lt (map fst (sort_rows (drop_dups [] krs))).
Proof.
  unfold dedup_sort, trial_numbers.
  destruct (keyed (rows full)) as [krs|e] eqn:Ek; [|discriminate].
  intros [= <-]. exists krs. cbn [rows].
  split; [reflexivity|split; [reflexivity|split]].
  - apply trial_numbers_keyed.
    apply keyed_inv in Ek as [_ Hall].
    rewrite Forall_forall in *. intros kr Hin.
    apply Hall. eapply drop_dups_incl. apply sort_rows_In, Hin.
  - apply sort_rows_sorted, drop_dups_fresh.
Qed.

End FrameFacts.

(** ** [save]: the ledger it writes *)

Section LedgerFacts.
Import Frame Objective.

Lemma for_each_app {S A} (f : A -> M S unit) l1 l2 s :
  for_each f (l1 ++ l2) s = (for_each f l1 ;; for_each f l2) s.
Proof.
  revert s. induction l1 as [|x l1 IH]; intros s; cbn [for_each app].
  - reflexivity.
  - unfold bind. destruct (f x s) as [s1 [[]|e]]; [|reflexivity].
    rewrite IH. reflexivity.
Qed.

Lemma record_trial_written t rd (a : adapter) :
  record_trial t rd a
  = (append_all (written t rd) ;; setitem "pruned" (Scalar (pruned_flag t))) a.
Proof.
  rewrite record_trial_unfold. unfold append_all, written.
  cbn [for_each fst snd].
  unfold bind.
  destruct (append "trial" (VInt (number t)) a) as [a0 [[]|e]]; [|reflexivity].
  rewrite for_each_app. unfold bind.
  destruct (for_each _ (params t) a0) as [a1 [[]|e]]; reflexivity.
Qed.

(** After recording, each column holds what it held, then what the call
    appended to it; [pruned] holds the scalar. *)
Lemma record_trial_columns t rd (a a1 : adapter) :
  record_trial t rd a = (a1, Ok tt) ->
  dict_get "pruned" (results a1) = Some (Scalar (pruned_flag t))
  /\ forall k, k <> "pruned" ->
       dict_get k (results a1)
       = match appended k (written t rd) with
         | [] => dict_get k (results a)
         | vs => Some (Col (column k (results a) ++ vs))
         end.
Proof.
  rewrite record_trial_written. intros H.
  apply bind_inv in H as [(e & _ & [=])|(a0 & [] & H0 & H)].
  apply append_all_inv in H0 as (_ & _ & Hcols).
  unfold setitem in H. injection H as <-. cbn [results].
  split; [apply dict_get_set_same|].
  intros k Hk. rewrite dict_get_set_other by assumption.
  now apply Hcols.
Qed.

Lemma appended_absent k items :
  ~ In k (keys items) -> appended k items = [].
Proof.
  unfold appended, keys.
  induction items as [|[k0 v0] tl IH]; cbn; [reflexivity|].
  intros H. destruct (String.eqb k0 k) eqn:E.
  - apply String.eqb_eq in E. tauto.
  - apply IH. tauto.
Qed.

(** A name written once has one value appended. *)
Lemma appended_single k x items :
  NoDup (keys items) -> In (k, x) items -> appended k items = [x].
Proof.
  unfold appended, keys.
  induction items as [|[k0 v0] tl IH]; cbn; [tauto|].
  intros Hnd Hin. inversion Hnd as [|? ? Hk0 Htl]; subst.
  destruct Hin as [[= -> ->]|Hin].
  - rewrite String.eqb_refl. cbn. f_equal.
    now apply (appended_absent k tl).
  - destruct (String.eqb k0 k) eqn:E.
    + apply String.eqb_eq in E. subst k0.
      exfalso. apply Hk0. now apply (in_map fst _ (k, x)).
    + now apply IH.
Qed.

Lemma reindex_get cols r k :
  In k cols ->
  dict_get k (reindex cols r)
  = Some (match dict_get k r with Some v => v | None => NaN end).
Proof.
  unfold reindex. induction cols as [|c cols IH]; cbn; [tauto|].
  destruct (String.eqb k c) eqn:E.
  - apply String.eqb_eq in E. now subst.
  - apply String.eqb_neq in E. intros [->|H]; [congruence|now apply IH].
Qed.

Lemma dict_get_in_keys {A} k (v : A) d : dict_get k d = Some v -> In k (keys d).
Proof.
  intros H. apply dict_get_In in H. now apply (in_map fst _ (k, v)).
Qed.

(** Merging with the file puts the rows of the in-memory frame first
    and keeps their cells. *)
Lemma merged_rows file mdf full :
  merged file mdf full ->
  exists f others,
    rows full = map f (rows mdf) ++ others
    /\ forall r k x, In k (columns mdf) -> dict_get k r = Some x ->
                     dict_get k (f r) = Some x.
Proof.
  unfold merged. destruct file as [file|].
  - intros (other & _ & ->). unfold concat. cbn [rows].
    eexists (reindex _), _. rewrite map_app. split; [reflexivity|].
    intros r k x Hk Hget. rewrite reindex_get, Hget; [reflexivity|].
    apply in_or_app. now left.
  - intros ->. exists (fun r => r), []. rewrite map_id, app_nil_r.
    split; [reflexivity|auto].
Qed.

(** C2, as amended: after every successful call to [save] for trial
    number n, the ledger written back has its rows in strictly ascending
    order of trial number, so one row per trial number; and when the
    names written are pairwise distinct and the in-memory ledger held no
    row for n before the call, the row for n holds the newly written
    values, whatever row the file had for n. *)
Theorem save_ledger_sorted_newest metric t rd (a a' : adapter) v :
  save metric t rd a = (a', Ok v) ->
  exists df ns,
    results_file a' = Some df
    /\ trial_numbers df = Ok ns
    /\ StronglySorted Z.lt ns
    /\ (NoDup ("trial" :: "pruned" :: keys (params t) ++ keys rd) ->
        ~ In (VInt (number t)) (column "trial" (results a)) ->
        exists r,
          In r (rows df)
          /\ trial_of r = Ok (number t)
          /\ (forall k x, In (k, x) (params t ++ rd) -> dict_get k r = Some x)
          /\ dict_get "pruned" r = Some (pruned_flag t)).
Proof.
  intros H.
  apply save_inv in H as (a1 & a2 & pout & Hrec & Hper & Hfile & _ & Hok);
    [|exact I].
  rewrite (Hok v eq_refl) in Hper.
  apply persist_inv in Hper as (_ & _ & Hper).
  destruct (Hper eq_refl) as (mdf & full & df & Hmdf & Hmerged & Hds & Hdf).
  apply dedup_sort_inv in Hds as (krs & Hkrs & Hrows & Hns & Hsorted).
  exists df, (map fst (sort_rows (drop_dups [] krs))).
  split; [congruence|split; [assumption|split; [assumption|]]].
  intros Hnames Hfresh.
  (* the columns after recording *)
  apply record_trial_columns in Hrec as [Hpruned Hcols].
  assert (Hkeys : NoDup (keys (written t rd))
                  /\ ~ In "pruned" (keys (written t rd))).
  { unfold written, keys. cbn [map fst]. rewrite map_app.
    inversion Hnames as [|? ? Ht Hrest]; subst.
    inversion Hrest as [|? ? Hp Hrest']; subst. cbn in Ht.
    split; [constructor; tauto|].
    intros [Heq|Hin]; [discriminate|contradiction]. }
  destruct Hkeys as [Hnd Hnp].
  assert (Hcol : forall k x, In (k, x) (written t rd) ->
             dict_get k (results a1)
             = Some (Col (column k (results a) ++ [x]))).
  { intros k x Hin. rewrite Hcols.
    - now rewrite (appended_single k x) by assumption.
    - intros ->. apply Hnp. now apply (in_map fst _ ("pruned", x)). }
  set (old := column "trial" (results a)) in *.
  assert (Htrial : dict_get "trial" (results a1)
                   = Some (Col (old ++ [VInt (number t)]))).
  { apply Hcol. now left. }
  (* the frame of the in-memory ledger *)
  apply from_dict_inv in Hmdf as (Hcolumns & L & Hmrows & Hlen).
  assert (HL : L = S (List.length old)).
  { rewrite <- (Hlen _ _ (dict_get_In _ _ _ Htrial)).
    rewrite length_app. cbn. lia. }
  subst L. rewrite seq_S, map_app in Hmrows. cbn [map Nat.add] in Hmrows.
  set (newest := row_at (results a1) (List.length old)) in *.
  assert (Hnew : forall k x, In (k, x) (written t rd) ->
             dict_get k newest = Some x).
  { intros k x Hin. unfold newest. rewrite row_at_get, (Hcol _ _ Hin).
    cbn [option_map cell_at]. f_equal.
    pose proof (Hlen _ _ (dict_get_In _ _ _ (Hcol _ _ Hin))) as Hl.
    rewrite length_app in Hl. cbn in Hl.
    replace (List.length old) with (List.length (column k (results a))) by lia.
    apply nth_middle. }
  (* the merged frame *)
  apply merged_rows in Hmerged as (f & others & Hfull & Hf).
  rewrite Hmrows, map_app, <- app_assoc in Hfull. cbn [map app] in Hfull.
  apply keyed_inv in Hkrs as [Hsnd Hkeyed].
  rewrite Hfull in Hsnd.
  apply map_eq_app in Hsnd as (k1 & k2' & -> & Hk1 & Hk2').
  destruct k2' as [|[z r] k2]; [discriminate|].
  cbn in Hk2'. injection Hk2' as -> Hk2.
  assert (Hin_cols : forall k e, dict_get k (results a1) = Some e ->
             In k (columns mdf)).
  { intros k e Hk. rewrite Hcolumns. eapply dict_get_in_keys, Hk. }
  assert (Hz : z = number t).
  { rewrite Forall_forall in Hkeyed.
    specialize (Hkeyed (z, f newest) ltac:(apply in_or_app; right; now left)).
    cbn in Hkeyed. unfold trial_of in Hkeyed.
    rewrite (Hf newest "trial" (VInt (number t))) in Hkeyed.
    - now injection Hkeyed.
    - eapply Hin_cols, Htrial.
    - apply Hnew. now left. }
  subst z.
  assert (Hearlier : ~ In (number t) (map fst k1)).
  { intros Hin. apply in_map_iff in Hin as ([z' r'] & Hz' & Hin).
    cbn in Hz'. subst z'.
    rewrite Forall_forall in Hkeyed.
    specialize (Hkeyed (number t, r') ltac:(apply in_or_app; now left)).
    cbn in Hkeyed.
    assert (Hr' : In r' (map snd k1)) by now apply (in_map snd _ (number t, r')).
    rewrite Hk1 in Hr'.
    apply in_map_iff in Hr' as (r0 & <- & Hr0).
    apply in_map_iff in Hr0 as (i & <- & Hi). apply in_seq in Hi.
    unfold trial_of in Hkeyed.
    rewrite (Hf _ "trial" (nth i old NaN)) in Hkeyed.
    - apply Hfresh. destruct (nth i old NaN) eqn:En; try discriminate.
      injection Hkeyed as ->. rewrite <- En. apply nth_In. lia.
    - eapply Hin_cols, Htrial.
    - rewrite row_at_get, Htrial. cbn [option_map cell_at].
      f_equal. apply app_nth1. lia. }
  exists (f newest). split; [|split; [|split]].
  - rewrite Hrows. apply (in_map snd _ (number t, f newest)).
    apply sort_rows_In. apply drop_dups_first; [intros []|assumption].
  - unfold trial_of. rewrite (Hf newest "trial" (VInt (number t))).
    + reflexivity.
    + eapply Hin_cols, Htrial.
    + apply Hnew. now left.
  - intros k x Hin. apply Hf.
    + eapply Hin_cols, Hcol. right. exact Hin.
    + apply Hnew. now right.
  - apply Hf.
    + eapply Hin_cols, Hpruned.
    + unfold newest. now rewrite row_at_get, Hpruned.
Qed.

End LedgerFacts.

(** ** [save] on sample data *)

Section SaveExamples.
Import Frame Objective Sample.

Lemma save_missing_metric_witness :
  (exists m, In m (required (Single "val_accuracy"))
             /\ dict_mem m [("val_loss", VFloat 0.5)] = false)
  /\ exists m, In m (required (Single "val_accuracy"))
               /\ dict_mem m [("val_loss", VFloat 0.5)] = false
               /\ save (Single "val_accuracy") trial_2 [("val_loss", VFloat 0.5)]
                    fresh_worker
                  = (fresh_worker, Raise (AssertionError (missing_metric m))).
Proof.
  assert (H : exists m, In m (required (Single "val_accuracy"))
                        /\ dict_mem m [("val_loss", VFloat 0.5)] = false).
  { exists "val_accuracy". split; [now left|reflexivity]. }
  split; [exact H|].
  exact (save_missing_metric (Single "val_accuracy") trial_2
           [("val_loss", VFloat 0.5)] fresh_worker H).
Defined.


(** Two trials in one process, the first pruned, the second not: both
    rows of the in-memory frame carry the second trial's flag. *)
Example pruned_flag_of_latest_trial :
  let a1 := fst (save (Single "val_loss") trial_0 two_metrics (summoned None)) in
  let a2 := fst (save (Single "val_loss") trial_1 two_metrics a1) in
  exists df,
    from_dict (results a2) = Ok df
    /\ map (dict_get "trial") (rows df) = [Some (VInt 0); Some (VInt 1)]
    /\ map (dict_get "pruned") (rows df) = [Some (VInt 0); Some (VInt 0)].
Proof.
  eexists. split; [vm_compute; reflexivity|]. split; reflexivity.
Qed.


Lemma save_ledger_sorted_newest_witness :
  exists df ns,
    results_file worker_after_trial_2 = Some df
    /\ trial_numbers df = Ok ns
    /\ StronglySorted Z.lt ns
    /\ exists r,
        In r (rows df)
        /\ trial_of r = Ok 2%Z
        /\ (forall k x, In (k, x) [("lr", VFloat 0.05); ("val_loss", VFloat 0.5)] ->
                        dict_get k r = Some x)
        /\ dict_get "pruned" r = Some (VInt 0).
Proof.
  assert (Hsave : save (Single "val_loss") trial_2 [("val_loss", VFloat 0.5)]
                    fresh_worker
                  = (worker_after_trial_2, Ok (VFloat 0.5)))
    by (vm_compute; reflexivity).
  destruct (save_ledger_sorted_newest _ _ _ _ _ _ Hsave)
    as (df & ns & Hfile & Hns & Hsorted & Hnewest).
  exists df, ns. split; [exact Hfile|split; [exact Hns|split; [exact Hsorted|]]].
  apply Hnewest.
  - repeat constructor; cbn; intuition discriminate.
  - intros [].
Defined.

Lemma float_half_not_point_nine : VFloat 0.5 <> VFloat 0.9.
Proof.
  intros H.
  assert (E : forall x y, VFloat x = VFloat y ->
                          PrimFloat.ltb x 0.9 = PrimFloat.ltb y 0.9)
    by (intros x y [= ->]; reflexivity).
  apply E in H. vm_compute in H. discriminate.
Qed.

(** C2 as stated fails when the in-memory ledger already holds a row for
    the trial: the file has a row for trial 2, the worker has saved trial
    2 before (loss 0.5), and a second save for trial 2 with loss 0.9
    succeeds but leaves the older row in the ledger. *)
Lemma save_keeps_older_in_memory_row :
  exists a' df,
    save (Single "val_loss") trial_2 [("val_loss", VFloat 0.9)]
      worker_after_trial_2 = (a', Ok (VFloat 0.9))
    /\ results_file a' = Some df
    /\ trial_numbers df = Ok [1; 2; 3]%Z
    /\ forall r, In r (rows df) -> trial_of r = Ok 2%Z ->
                 dict_get "val_loss" r = Some (VFloat 0.5)
                 /\ dict_get "val_loss" r <> Some (VFloat 0.9).
Proof.
  eexists. eexists. split; [vm_compute; reflexivity|].
  split; [reflexivity|]. split; [reflexivity|].
  intros r Hin Hr.
  assert (Hloss : dict_get "val_loss" r = Some (VFloat 0.5)).
  { cbn in Hin. destruct Hin as [<-|[<-|[<-|[]]]];
      solve [reflexivity | discriminate Hr]. }
  split; [exact Hloss|].
  rewrite Hloss. intros H. apply float_half_not_point_nine. congruence.
Qed.

(** X5: for a study with one metric name, a successful [save] returns the
    value that the results mapping holds under that name. *)
Lemma save_single_returns_metric m t rd (a a' : adapter) v :
  save (Single m) t rd a = (a', Ok v) -> dict_get m rd = Some v.
Proof.
  unfold save. intros H.
  apply bind_inv in H as [(e & _ & [=])|(a0 & [] & _ & H)].
  apply bind_inv in H as [(e & _ & [=])|(a1 & [] & _ & H)].
  apply bind_inv in H as [(e & _ & [=])|(a2 & [] & _ & H)].
  unfold lift, getitem in H.
  destruct (dict_get m rd); now inversion H.
Qed.

(** X6: for a study with a list of metric names, a successful [save]
    returns a list with, for each declared name in order, the in-memory
    ledger's entry under that name: the whole column of the process so
    far. *)
Lemma save_multi_returns_columns ms t rd (a a' : adapter) v :
  save (Multi ms) t rd a = (a', Ok v) ->
  exists es, v = VList (map pyval_of_entry es)
             /\ Forall2 (fun m e => dict_get m (results a') = Some e) ms es.
Proof.
  unfold save. intros H.
  apply bind_inv in H as [(e & _ & [=])|(a0 & [] & _ & H)].
  apply bind_inv in H as [(e & _ & [=])|(a1 & [] & _ & H)].
  apply bind_inv in H as [(e & _ & [=])|(a2 & [] & _ & H)].
  apply bind_inv in H as [(e & _ & [=])|(a3 & es & H3 & H)].
  apply lookups_inv in H3 as (_ & (es' & [= <-] & Hall) & _).
  cbn in H. injection H as <- <-. now exists es.
Qed.

(** C8 on the code: with two metric names, the first trial of a process
    gets back a list of two one-element lists, and the second trial a
    list of two two-element lists: the ledger columns, not the trial's
    values. *)
Example save_multi_returns_history :
  let study := Multi ["val_loss"; "val_accuracy"] in
  let first := save study trial_0 two_metrics (summoned None) in
  let second :=
    save study trial_1 [("val_loss", VFloat 0.25); ("val_accuracy", VFloat 0.5)]
      (fst first) in
  snd first = Ok (VList [VList [VFloat 0.5]; VList [VFloat 0.75]])
  /\ snd second = Ok (VList [VList [VFloat 0.5; VFloat 0.25];
                            VList [VFloat 0.75; VFloat 0.5]]).
Proof. split; vm_compute; reflexivity. Qed.

End SaveExamples.


(** ** The check after a trial *)

Section BudgetFacts.
Import Budget.
Local Open Scope float_scope.

Variable nat_truthy : bool.

(** Whatever the mask makes of NaT, the values that [mean] and [std] see
    are the durations of the trials that have a completion timestamp. *)
Lemma run_times_completed (df : list trial_row) :
  dropna (map hours
            (select (map (fun r => truthy nat_truthy (datetime_complete r)) df)
                    (map run_time df)))
  = completed_durations df.
Proof.
  assert (Hsome : forall x s, dropna (Some x :: s) = x :: dropna s)
    by reflexivity.
  assert (Hnone : forall s, dropna (None :: s) = dropna s) by reflexivity.
  unfold completed_durations.
  induction df as [|r df IH]; [reflexivity|].
  cbn [map select flat_map]. unfold run_time at 1.
  destruct (datetime_complete r) as [c|]; cbn [truthy].
  - cbn [map hours]. rewrite Hsome, IH. reflexivity.
  - destruct nat_truthy; [cbn [map hours]; rewrite Hnone|]; exact IH.
Qed.

Lemma completed_le_rows (df : list trial_row) :
  (completed df <= List.length df)%nat.
Proof. apply filter_length_le. Qed.

Lemma early_stopping_many (wall_time_secs elapsed : float) (df : list trial_row) :
  (1 < List.length df)%nat ->
  early_stopping nat_truthy wall_time_secs df elapsed
  = if wall_time_secs - elapsed <? estimate_of df then Stop
    else Continue (estimate_of df).
Proof.
  intros Hlen. unfold early_stopping, series_mean, series_std, estimate_of.
  apply Nat.ltb_lt in Hlen. rewrite Hlen.
  now rewrite run_times_completed.
Qed.

Lemma early_stopping_few (wall_time_secs elapsed : float) (df : list trial_row) :
  (List.length df <= 1)%nat ->
  early_stopping nat_truthy wall_time_secs df elapsed
  = if wall_time_secs - elapsed <? wall_time_secs / 2 then Stop
    else Continue (0.95 * (wall_time_secs - elapsed)).
Proof.
  intros Hlen. unfold early_stopping.
  destruct (Nat.ltb_spec 1 (List.length df)) as [H|H]; [lia|reflexivity].
Qed.

(** One turn of the loop whose trial returns. *)
Lemma optimize_loop_returned required wall_time_secs estimate it world :
  (successful it < required)%Z ->
  outcome_of it = Returned ->
  optimize_loop nat_truthy required wall_time_secs estimate (it :: world)
  = let c := {| n_trials := 1; timeout := estimate |} in
    match early_stopping nat_truthy wall_time_secs (dataframe it) (elapsed_after it) with
    | Stop => {| calls := [c]; log := [stopping_early]; ended := BudgetExhausted |}
    | Continue estimate' =>
        let r := optimize_loop nat_truthy required wall_time_secs estimate' world in
        {| calls := c :: calls r; log := log r; ended := ended r |}
    end.
Proof.
  intros Hlt Hout. cbn [optimize_loop].
  apply Z.ltb_lt in Hlt. now rewrite Hlt, Hout.
Qed.

(** When two or more trials have a completion timestamp, the check
    after a trial sets the estimate to the mean of the completed-trial
    durations plus two times their standard deviation, and compares the
    two numbers of lines 216 and 217 as they are: the loop stops when
    [wall_time_secs - elapsed], a number of seconds, is less than the
    estimate, a number of hours; otherwise it goes on with that
    estimate. *)
Theorem estimate_from_completed_trials (wall_time_secs elapsed : float)
  (df : list trial_row) :
  (2 <= completed df)%nat ->
  early_stopping nat_truthy wall_time_secs df elapsed
  = (if wall_time_secs - elapsed <? estimate_of df then Stop
     else Continue (estimate_of df))
  /\ forall required estimate it world,
      dataframe it = df -> elapsed_after it = elapsed ->
      (successful it < required)%Z -> outcome_of it = Returned ->
      optimize_loop nat_truthy required wall_time_secs estimate (it :: world)
      = let c := {| n_trials := 1; timeout := estimate |} in
        if wall_time_secs - elapsed <? estimate_of df
        then {| calls := [c]; log := [stopping_early]; ended := BudgetExhausted |}
        else let r := optimize_loop nat_truthy required wall_time_secs
                        (estimate_of df) world in
             {| calls := c :: calls r; log := log r; ended := ended r |}.
Proof.
  intros Hcompleted.
  assert (Hcheck : early_stopping nat_truthy wall_time_secs df elapsed
                   = (if wall_time_secs - elapsed <? estimate_of df then Stop
                      else Continue (estimate_of df))).
  { apply early_stopping_many. pose proof (completed_le_rows df). lia. }
  split; [exact Hcheck|].
  intros required estimate it world Hdf Hel Hlt Hout.
  rewrite optimize_loop_returned by assumption.
  rewrite Hdf, Hel, Hcheck.
  now destruct (wall_time_secs - elapsed <? estimate_of df).
Qed.

(** C6, as amended: when the dataframe of the study has fewer than two
    rows (trials in any state), the loop stops without launching another
    trial if the remaining wall time is below half of the wall limit, and
    otherwise goes on with 0.95 times the remaining wall time as the
    estimate. *)
Theorem estimate_from_remaining_time (wall_time_secs elapsed : float)
  (df : list trial_row) :
  (List.length df < 2)%nat ->
  early_stopping nat_truthy wall_time_secs df elapsed
  = (if wall_time_secs - elapsed <? wall_time_secs / 2 then Stop
     else Continue (0.95 * (wall_time_secs - elapsed)))
  /\ forall required estimate it world,
      dataframe it = df -> elapsed_after it = elapsed ->
      (successful it < required)%Z -> outcome_of it = Returned ->
      optimize_loop nat_truthy required wall_time_secs estimate (it :: world)
      = let c := {| n_trials := 1; timeout := estimate |} in
        if wall_time_secs - elapsed <? wall_time_secs / 2
        then {| calls := [c]; log := [stopping_early]; ended := BudgetExhausted |}
        else let r := optimize_loop nat_truthy required wall_time_secs
                        (0.95 * (wall_time_secs - elapsed)) world in
             {| calls := c :: calls r; log := log r; ended := ended r |}.
Proof.
  intros Hrows.
  assert (Hcheck : early_stopping nat_truthy wall_time_secs df elapsed
                   = (if wall_time_secs - elapsed <? wall_time_secs / 2 then Stop
                      else Continue (0.95 * (wall_time_secs - elapsed)))).
  { apply early_stopping_few. lia. }
  split; [exact Hcheck|].
  intros required estimate it world Hdf Hel Hlt Hout.
  rewrite optimize_loop_returned by assumption.
  rewrite Hdf, Hel, Hcheck.
  now destruct (wall_time_secs - elapsed <? wall_time_secs / 2).
Qed.

(** Every call asks for one trial; the first has the estimate the loop
    starts with as its timeout, and each later one the estimate that the
    check after the trial before it returned. *)
Lemma optimize_loop_calls required wall_time_secs world :
  forall estimate i c,
    nth_error (calls (optimize_loop nat_truthy required wall_time_secs estimate world)) i
    = Some c ->
    n_trials c = 1%Z
    /\ (i = 0%nat -> timeout c = estimate)
    /\ forall c',
        nth_error (calls (optimize_loop nat_truthy required wall_time_secs estimate world))
                  (S i) = Some c' ->
        exists it,
          nth_error world i = Some it
          /\ early_stopping nat_truthy wall_time_secs (dataframe it) (elapsed_after it)
             = Continue (timeout c').
Proof.
  induction world as [|it world IH]; intros estimate i c; cbn [optimize_loop].
  { destruct i; discriminate. }
  destruct (successful it <? required)%Z; [|destruct i; discriminate].
  assert (Hlast : forall r lg e,
             nth_error (calls {| calls := [r]; log := lg; ended := e |}) i = Some c ->
             n_trials c = n_trials r
             /\ (i = 0%nat -> timeout c = timeout r)
             /\ forall c', nth_error (calls {| calls := [r]; log := lg; ended := e |})
                                     (S i) = Some c' -> False).
  { intros r lg e. cbn [calls]. destruct i as [|[|i]]; cbn; try discriminate.
    intros [= <-]. split; [reflexivity|split; [reflexivity|discriminate]]. }
  destruct (outcome_of it) as [|[|E|what]].
  2,3,4: intros H; apply Hlast in H as (Hn & Ht & Hnone);
    (split; [exact Hn|split; [exact Ht|]]);
    intros c' Hc'; destruct (Hnone c' Hc').
  destruct (early_stopping nat_truthy wall_time_secs (dataframe it) (elapsed_after it))
    as [|estimate'] eqn:Echeck.
  { intros H; apply Hlast in H as (Hn & Ht & Hnone).
    split; [exact Hn|split; [exact Ht|]].
    intros c' Hc'; destruct (Hnone c' Hc'). }
  cbn [calls]. destruct i as [|i]; cbn [nth_error].
  - intros [= <-]. split; [reflexivity|split; [reflexivity|]].
    intros c' Hc'. exists it. split; [reflexivity|].
    destruct (IH estimate' 0%nat c' Hc') as (_ & Ht & _).
    now rewrite (Ht eq_refl).
  - intros Hc. destruct (IH estimate' i c Hc) as (Hn & _ & Hnext).
    split; [exact Hn|split; [discriminate|exact Hnext]].
Qed.

(** C5, as amended: on every turn of the loop the optimizer is asked to
    run exactly one trial; the timeout of the first call is the wall-time
    budget remaining at line 186 (wall limit minus elapsed time), and the
    timeout of each later call is the duration estimate that the check
    after the preceding trial computed. *)
Theorem timeout_is_estimate required wall_time_secs elapsed0 world i c :
  nth_error (calls (main_loop nat_truthy required wall_time_secs elapsed0 world)) i
  = Some c ->
  n_trials c = 1%Z
  /\ (i = 0%nat -> timeout c = wall_time_secs - elapsed0)
  /\ forall c',
      nth_error (calls (main_loop nat_truthy required wall_time_secs elapsed0 world))
                (S i) = Some c' ->
      exists it,
        nth_error world i = Some it
        /\ early_stopping nat_truthy wall_time_secs (dataframe it) (elapsed_after it)
           = Continue (timeout c').
Proof. unfold main_loop. apply optimize_loop_calls. Qed.


End BudgetFacts.

(** ** The loop on sample data *)

Section BudgetExamples.
Import Budget Sample.
Local Open Scope float_scope.

Lemma float_neq (x y : float) :
  PrimFloat.eqb x x = true -> PrimFloat.eqb x y = false -> x <> y.
Proof. intros Hxx Hxy ->. congruence. Qed.

(** Durations of 10, 12 and 11 hours give the estimate 13. *)
Example estimate_of_three_trials :
  completed_durations three_trials = [10; 12; 11]
  /\ estimate_of three_trials = 13.
Proof. split; vm_compute; reflexivity. Qed.

Lemma estimate_from_completed_trials_witness :
  (2 <= completed three_trials)%nat
  /\ early_stopping true 3600 three_trials 3590
     = (if 3600 - 3590 <? estimate_of three_trials then Stop
        else Continue (estimate_of three_trials)).
Proof.
  assert (H : (2 <= completed three_trials)%nat) by (cbn; lia).
  split; [exact H|].
  exact (proj1 (estimate_from_completed_trials true 3600 3590 three_trials H)).
Defined.

(** C4 on the code: the durations and the estimate are numbers of hours
    (line 211 divides the seconds by 3600), the remaining wall time is a
    number of seconds (line 217).  In a job of twelve hours (43200
    seconds) with three completed trials of 10, 12 and 11 hours and one
    hour left (3600 seconds), the estimate is 11 + 2 * 1 = 13 hours, more
    than the hour that remains; line 218 compares 3600 with 13, so the
    loop does not stop: it launches another trial, with 13 as its
    timeout. *)
Example hours_compared_with_seconds (nat_truthy : bool) :
  let wall_time_secs := 43200 in
  let elapsed := 39600 in
  completed three_trials = 3%nat
  /\ completed_durations three_trials = [10; 12; 11]
  /\ mean (completed_durations three_trials) = 11
  /\ std (completed_durations three_trials) = 1
  /\ estimate_of three_trials = 13
  /\ wall_time_secs - elapsed = 3600
  /\ ((wall_time_secs - elapsed) / 3600 <? estimate_of three_trials) = true
  /\ early_stopping nat_truthy wall_time_secs three_trials elapsed = Continue 13
  /\ nth_error
       (calls (main_loop nat_truthy 10 wall_time_secs 0 last_hour)) 1
     = Some {| n_trials := 1; timeout := 13 |}.
Proof.
  destruct nat_truthy; repeat split; vm_compute; reflexivity.
Qed.

(** With 10 left the loop stops; with 14 left it goes on. *)
Example three_trials_budget :
  early_stopping true 3600 three_trials 3590 = Stop
  /\ early_stopping false 3600 three_trials 3590 = Stop
  /\ early_stopping true 3600 three_trials 3586 = Continue 13.
Proof. repeat split; vm_compute; reflexivity. Qed.

Lemma estimate_from_remaining_time_witness :
  (List.length (@nil trial_row) < 2)%nat
  /\ early_stopping true 3600 [] 1000
     = (if 3600 - 1000 <? 3600 / 2 then Stop
        else Continue (0.95 * (3600 - 1000))).
Proof.
  assert (H : (List.length (@nil trial_row) < 2)%nat) by (cbn; lia).
  split; [exact H|].
  exact (proj1 (estimate_from_remaining_time true 3600 1000 [] H)).
Defined.

(** The spec's figures: a limit of 3600 and no trial yet; after 1000 the
    loop goes on with 2470, after 2000 it stops. *)
Example no_trial_budget :
  early_stopping true 3600 [] 1000 = Continue 2470
  /\ early_stopping true 3600 [] 2000 = Stop.
Proof. split; vm_compute; reflexivity. Qed.

(** C6 as stated fails when the study has two rows of which one is
    completed: fewer than two completed trials exist and less than half
    of the wall limit remains, yet the check takes the mean-and-deviation
    branch, whose estimate is NaN, and the loop launches another trial. *)
Lemma one_completed_of_two_goes_on :
  (completed one_done_one_running < 2)%nat
  /\ (3600 - 2000 <? 3600 / 2) = true
  /\ (forall b, early_stopping b 3600 one_done_one_running 2000 = Continue nan)
  /\ (forall b, List.length (calls (main_loop b 10 3600 0 late_turn)) = 2%nat).
Proof.
  split; [cbn; lia|]. split; [reflexivity|].
  split; intros []; vm_compute; reflexivity.
Qed.

Lemma timeout_is_estimate_witness :
  nth_error (calls (main_loop true 10 3600 0 two_turns)) 0
  = Some {| n_trials := 1; timeout := 3600 |}
  /\ n_trials {| n_trials := 1; timeout := 3600 |} = 1%Z.
Proof.
  assert (H : nth_error (calls (main_loop true 10 3600 0 two_turns)) 0
              = Some {| n_trials := 1; timeout := 3600 |})
    by (vm_compute; reflexivity).
  split; [exact H|].
  exact (proj1 (timeout_is_estimate true 10 3600 0 two_turns 0 _ H)).
Defined.

(** C5 as stated fails on the second turn: 2600 seconds remain when the
    second trial is launched, and the timeout passed is 2470, the
    estimate of the check after the first trial. *)
Lemma timeout_differs_from_remaining :
  exists c it,
    nth_error (calls (main_loop true 10 3600 0 two_turns)) 1 = Some c
    /\ nth_error two_turns 1 = Some it
    /\ timeout c = 2470
    /\ 3600 - started it = 2600
    /\ timeout c <> 3600 - started it.
Proof.
  eexists. eexists.
  split; [vm_compute; reflexivity|]. split; [reflexivity|].
  split; [reflexivity|]. split; [vm_compute; reflexivity|].
  apply float_neq; vm_compute; reflexivity.
Qed.


(** A failing trial: the loop logs the message and makes no third call. *)
Example loop_stops_on_failure :
  optimize_loop true 10 3600 3600 failing
  = {| calls := [ {| n_trials := 1; timeout := 3600 |};
                  {| n_trials := 1; timeout := 2470 |} ];
       log := ["Died due to due to error CUDA out of memory"%string];
       ended := Died |}.
Proof. vm_compute. reflexivity. Qed.

End BudgetExamples.


(** ** Colons *)

Section StringFacts.

Lemma has_colon_app (a b : string) :
  has_colon (a ++ b) = has_colon a || has_colon b.
Proof.
  induction a as [|c a IH]; cbn; [reflexivity|].
  now destruct (Ascii.eqb c colon).
Qed.

Lemma split_colon_nonempty (s : string) : split_colon s <> [].
Proof.
  destruct s as [|c s]; cbn; [discriminate|].
  destruct (Ascii.eqb c colon); [discriminate|].
  destruct (split_colon s); discriminate.
Qed.

(** A name with a colon splits into two segments or more. *)
Lemma split_colon_two (s : string) :
  has_colon s = true -> exists k k' rest, split_colon s = k :: k' :: rest.
Proof.
  induction s as [|c s IH]; cbn; [discriminate|].
  destruct (Ascii.eqb c colon).
  - intros _. destruct (split_colon s) as [|k' rest] eqn:E.
    + now apply split_colon_nonempty in E.
    + now exists EmptyString, k', rest.
  - intros H. destruct (IH H) as (k & k' & rest & ->).
    now exists (String c k), k', rest.
Qed.

(** A join without colon joined at most one segment. *)
Lemma join_colon_free (p : list string) :
  has_colon (join_colon p) = false -> p = [] \/ p = [join_colon p].
Proof.
  destruct p as [|s [|s' tl]]; cbn [join_colon]; [now left|now right|].
  rewrite has_colon_app. cbn [has_colon].
  rewrite Ascii.eqb_refl, Bool.orb_true_r. discriminate.
Qed.

(** Joining the characters of a string: without colon in the result, the
    string had at most one character and comes back as it was. *)
Lemma join_chars_colon_free (s : string) :
  has_colon (join_colon (chars s)) = false -> join_colon (chars s) = s.
Proof.
  intros H. destruct (join_colon_free _ H) as [E|E].
  - destruct s; [reflexivity|discriminate].
  - destruct s as [|c [|c' s]]; [reflexivity|reflexivity|discriminate].
Qed.

End StringFacts.

(** ** Trees *)

Section TreeFacts.
Import Config.

Lemma node_induction (P : node -> Prop) :
  (forall v, P (Leaf v)) ->
  (forall kvs, Forall (fun kv => P (snd kv)) kvs -> P (Map kvs)) ->
  forall n, P n.
Proof.
  intros Hleaf Hmap. fix IH 1. intros [v|kvs]; [apply Hleaf|].
  apply Hmap. induction kvs as [|kv tl IHtl]; constructor; [apply IH|exact IHtl].
Qed.

Lemma flatten_map (prefix : list string) (kvs : list (string * node)) :
  flatten_node prefix (Map kvs) = flatten_entries prefix kvs.
Proof.
  unfold flatten_entries. cbn [flatten_node].
  induction kvs as [|[k c] tl IH]; [reflexivity|].
  cbn [flat_map fst snd]. now rewrite <- IH.
Qed.

(** The reader yields the pairs of every entry. *)
Lemma flatten_entry prefix kvs k c x :
  In (k, c) kvs -> In x (flatten_node (prefix ++ [k]) c) ->
  In x (flatten_node prefix (Map kvs)).
Proof.
  intros Hin Hx. rewrite flatten_map. unfold flatten_entries.
  apply in_flat_map. now exists (k, c).
Qed.

(** Every path the reader yields extends the prefix, properly so below a
    mapping. *)
Lemma flatten_paths n : forall prefix p v,
  In (p, v) (flatten_node prefix n) ->
  exists suffix, p = prefix ++ suffix
                 /\ (forall kvs, n = Map kvs -> suffix <> []).
Proof.
  induction n as [v0|kvs IH] using node_induction; intros prefix p v Hin.
  - cbn in Hin. destruct Hin as [[= <- <-]|[]].
    exists []. split; [now rewrite app_nil_r|discriminate].
  - rewrite flatten_map in Hin. unfold flatten_entries in Hin.
    apply in_flat_map in Hin as ([k c] & Hkc & Hin). cbn [fst snd] in Hin.
    rewrite Forall_forall in IH.
    destruct (IH (k, c) Hkc _ _ _ Hin) as (suffix & -> & _).
    exists (k :: suffix). split; [now rewrite <- app_assoc|discriminate].
Qed.

Lemma reader_nonempty (t : tree) p v :
  In (p, v) (recursive_config_reader t) -> p <> [].
Proof.
  unfold recursive_config_reader. intros H.
  apply flatten_paths in H as (suffix & -> & Hne). cbn. now apply (Hne t).
Qed.

(** A one-segment path is a leaf of the top level. *)
Lemma reader_top_leaf (t : tree) s v :
  In ([s], v) (recursive_config_reader t) -> In (s, Leaf v) t.
Proof.
  unfold recursive_config_reader. rewrite flatten_map. unfold flatten_entries.
  intros H. apply in_flat_map in H as ([k c] & Hkc & Hin).
  cbn [fst snd app] in Hin. destruct c as [v0|kvs].
  - cbn in Hin. destruct Hin as [[= <- <-]|[]]. exact Hkc.
  - apply flatten_paths in Hin as (suffix & Hp & Hne).
    specialize (Hne kvs eq_refl).
    destruct suffix; [congruence|discriminate].
Qed.

Lemma dict_set_has {A} k (v : A) d : In (k, v) (dict_set k v d).
Proof.
  induction d as [|[k' v'] tl IH]; cbn; [now left|].
  destruct (String.eqb k k') eqn:E; [|now right].
  apply String.eqb_eq in E. subst. now left.
Qed.

Lemma dict_set_In {A} k (v : A) d a b :
  In (a, b) (dict_set k v d) -> In (a, b) d \/ (a = k /\ b = v).
Proof.
  induction d as [|[k' v'] tl IH]; cbn.
  - intros [[= <- <-]|[]]. now right.
  - destruct (String.eqb k k') eqn:E.
    + apply String.eqb_eq in E. subst k'.
      intros [[= <- <-]|H]; [now right|left; now right].
    + intros [H|H]; [left; now left|].
      destruct (IH H) as [H'|H']; [left; now right|now right].
Qed.

(** The mapping that the update descends into. *)
Lemma recursive_update_cons k k' rest (t : tree) value :
  recursive_update (k :: k' :: rest) t value
  = match recursive_update (k' :: rest)
            (match dict_get k t with Some (Map m) => m | _ => [] end) value with
    | Ok sub' => Ok (dict_set k (Map sub') t)
    | Raise e => Raise e
    end.
Proof. reflexivity. Qed.

(** The update of a non-empty path succeeds. *)
Lemma recursive_update_ok path : forall (t : tree) value,
  path <> [] -> exists c, recursive_update path t value = Ok c.
Proof.
  induction path as [|k rest IH]; intros t value Hne; [congruence|].
  destruct rest as [|k' rest'].
  - eexists. reflexivity.
  - rewrite recursive_update_cons.
    match goal with
    | |- context [recursive_update (k' :: rest') ?sub value] =>
        destruct (IH sub value ltac:(discriminate)) as [sub' ->]
    end.
    eexists. reflexivity.
Qed.

(** The update of a path of two segments or more puts a mapping under the
    first. *)
Lemma recursive_update_deep k k' rest (t : tree) value :
  exists sub,
    recursive_update (k :: k' :: rest) t value = Ok (dict_set k (Map sub) t).
Proof.
  rewrite recursive_update_cons.
  match goal with
  | |- context [recursive_update (k' :: rest) ?sub value] =>
      destruct (recursive_update_ok (k' :: rest) sub value ltac:(discriminate))
        as [sub' ->]
  end.
  eexists. reflexivity.
Qed.

(** After the update the reader finds the value at the path. *)
Lemma recursive_update_applied path : forall (t c : tree) v prefix,
  recursive_update path t (Leaf v) = Ok c ->
  In (prefix ++ path, v) (flatten_node prefix (Map c)).
Proof.
  induction path as [|k rest IH]; intros t c v prefix; [discriminate|].
  destruct rest as [|k' rest'].
  - cbn. intros [= <-].
    apply (flatten_entry prefix _ k (Leaf v)); [apply dict_set_has|now left].
  - rewrite recursive_update_cons.
    match goal with
    | |- context [recursive_update (k' :: rest') ?sub (Leaf v)] =>
        destruct (recursive_update (k' :: rest') sub (Leaf v)) as [sub'|e] eqn:E
    end; [|discriminate].
    intros [= <-].
    apply (flatten_entry prefix _ k (Map sub')); [apply dict_set_has|].
    specialize (IH _ _ _ (prefix ++ [k]) E).
    now rewrite <- app_assoc in IH.
Qed.

End TreeFacts.

(** ** [update_config] *)

Section ConfigureFacts.
Import Config Objective.

Variable trial_suggest_loader : trial -> node -> result pyval.

Lemma mem_str_In u l : mem_str u l = true <-> In u l.
Proof.
  unfold mem_str. rewrite existsb_exists. split.
  - intros (x & Hin & Hx). apply String.eqb_eq in Hx. now subst.
  - intros H. exists u. split; [assumption|apply String.eqb_refl].
Qed.

(** One turn either skips the name, or asks for one value and applies it. *)
Lemma update_one_inv t p n spec p' :
  update_one trial_suggest_loader t p (n, spec) = Ok p' ->
  (p' = p /\ has_colon n = false /\ dict_mem n (conf p) = false)
  \/ (exists v,
        trial_suggest_loader t spec = Ok v
        /\ suggested p' = suggested p ++ [(n, spec)]
        /\ updated p' = updated p ++ [n]
        /\ ((has_colon n = true
             /\ recursive_update (split_colon n) (conf p) (Leaf v) = Ok (conf p'))
            \/ (has_colon n = false /\ dict_mem n (conf p) = true
                /\ conf p' = dict_set n (Leaf v) (conf p)))).
Proof.
  unfold Objective.update_one. cbn [fst snd].
  destruct (has_colon n) eqn:Ec.
  - destruct (trial_suggest_loader t spec) as [v|e]; [|discriminate].
    destruct (recursive_update (split_colon n) (conf p) (Leaf v)) as [c|e] eqn:Eu;
      [|discriminate].
    intros [= <-]. right. exists v. cbn. repeat split. now left.
  - destruct (dict_mem n (conf p)) eqn:Em.
    + destruct (trial_suggest_loader t spec) as [v|e]; [|discriminate].
      intros [= <-]. right. exists v. cbn. repeat split. now right.
    + intros [= <-]. now left.
Qed.

(** A turn for another name puts no leaf under [n] at the top level. *)
Lemma update_one_keeps_no_leaf t p m spec p' n :
  update_one trial_suggest_loader t p (m, spec) = Ok p' ->
  m <> n -> no_top_leaf n (conf p) -> no_top_leaf n (conf p').
Proof.
  intros H Hne Hno.
  apply update_one_inv in H
    as [(-> & _)|(v & _ & _ & _ & [(Hc & Hup)|(_ & _ & Hset)])];
    [assumption| |].
  - destruct (split_colon_two m Hc) as (k & k' & rest & Hsplit).
    rewrite Hsplit in Hup.
    destruct (recursive_update_deep k k' rest (conf p) (Leaf v)) as [sub Hdeep].
    rewrite Hdeep in Hup. injection Hup as <-.
    intros v' Hin. apply dict_set_In in Hin as [Hin|[_ [=]]]. now apply (Hno v').
  - rewrite Hset. intros v' Hin.
    apply dict_set_In in Hin as [Hin|[Heq _]]; [now apply (Hno v')|congruence].
Qed.

Lemma update_all_keeps_no_leaf t items n : forall p p',
  update_all trial_suggest_loader t p items = Ok p' ->
  ~ In n (keys items) -> no_top_leaf n (conf p) -> no_top_leaf n (conf p').
Proof.
  induction items as [|[m spec] tl IH]; intros p p'; cbn [Objective.update_all].
  - now intros [= <-].
  - destruct (update_one trial_suggest_loader t p (m, spec)) as [p1|e] eqn:E1; [|discriminate].
    intros H Hn Hno. cbn in Hn.
    apply (IH p1 p' H); [tauto|].
    eapply update_one_keeps_no_leaf; [exact E1|tauto|assumption].
Qed.

(** The suggestions of a run: one for some of the items, in their order,
    and none twice when the names are distinct. *)
Lemma update_all_suggested t items : forall p p',
  update_all trial_suggest_loader t p items = Ok p' ->
  exists extra,
    suggested p' = suggested p ++ extra
    /\ incl extra items
    /\ (NoDup (keys items) -> NoDup (map fst extra)).
Proof.
  induction items as [|[m spec] tl IH]; intros p p'; cbn [Objective.update_all].
  - intros [= <-]. exists []. rewrite app_nil_r.
    split; [reflexivity|split; [intros x []|constructor]].
  - destruct (update_one trial_suggest_loader t p (m, spec)) as [p1|e] eqn:E1; [|discriminate].
    intros H. destruct (IH p1 p' H) as (e2 & Hs2 & Hincl2 & Hnd2).
    apply update_one_inv in E1 as [(-> & _)|(v & _ & Hs1 & _)].
    + exists e2. split; [assumption|split].
      * intros x Hx. right. now apply Hincl2.
      * intros Hnd. apply Hnd2. now inversion Hnd.
    + exists ((m, spec) :: e2). split; [|split].
      * rewrite Hs2, Hs1, <- app_assoc. reflexivity.
      * intros x [<-|Hx]; [now left|right; now apply Hincl2].
      * intros Hnd. inversion Hnd as [|? ? Hm Htl]; subst. cbn.
        constructor; [|now apply Hnd2].
        intros Hin. apply Hm. apply in_map_iff in Hin as (x & Hx & Hin).
        apply in_map_iff. exists x. split; [assumption|now apply Hincl2].
Qed.

(** A name with a colon gets its suggestion. *)
Lemma update_all_colon t items n spec : forall p p',
  update_all trial_suggest_loader t p items = Ok p' ->
  In (n, spec) items -> has_colon n = true -> In (n, spec) (suggested p').
Proof.
  induction items as [|[m s0] tl IH]; intros p p'; cbn [Objective.update_all].
  - intros _ [].
  - destruct (update_one trial_suggest_loader t p (m, s0)) as [p1|e] eqn:E1; [|discriminate].
    intros H [[= -> ->]|Hin] Hc.
    + destruct (update_all_suggested t tl p1 p' H) as (e2 & -> & _).
      apply in_or_app. left.
      apply update_one_inv in E1 as [(_ & Hc' & _)|(v & _ & -> & _)];
        [congruence|].
      apply in_or_app. right. now left.
    + now apply (IH p1 p' H).
Qed.

(** A declared name that got no suggestion has no colon, and the tree
    ends without a top-level leaf under it. *)
Lemma update_all_skipped t items n : forall p p',
  update_all trial_suggest_loader t p items = Ok p' ->
  NoDup (keys items) -> In n (keys items) ->
  ~ In n (map fst (suggested p')) ->
  has_colon n = false /\ no_top_leaf n (conf p').
Proof.
  induction items as [|[m spec] tl IH]; intros p p'; cbn [Objective.update_all].
  - intros _ _ [].
  - destruct (update_one trial_suggest_loader t p (m, spec)) as [p1|e] eqn:E1; [|discriminate].
    intros H Hnd Hin Hnot. inversion Hnd as [|? ? Hm Htl]; subst.
    cbn in Hin. destruct Hin as [<-|Hin]; [|now apply (IH p1 p' H)].
    destruct (update_all_suggested t tl p1 p' H) as (e2 & Hs2 & _).
    apply update_one_inv in E1 as [(-> & Hc & Hmem)|(v & _ & Hs1 & _)].
    + split; [assumption|].
      apply (update_all_keeps_no_leaf t tl m p p' H Hm).
      intros v Hv. unfold dict_mem in Hmem.
      destruct (dict_get m (conf p)) eqn:Eg; [discriminate|].
      apply dict_get_keys in Eg. apply Eg.
      now apply (in_map fst _ (m, Leaf v)).
    + exfalso. apply Hnot. rewrite Hs2, Hs1, !map_app.
      apply in_or_app. left. apply in_or_app. right. now left.
Qed.

(** Whatever the audit observes without a colon in it is the one segment
    of a path the reader yielded. *)
Lemma match_updated_traceable leaves v us : forall k a,
  (forall p v', In (p, v') leaves -> p <> []) ->
  traceable leaves k ->
  (forall s, In s (observed a) -> traceable leaves (KStr s)) ->
  forall s, In s (observed (match_updated v us k a)) -> traceable leaves (KStr s).
Proof.
  induction us as [|u tl IH]; intros k a Hne Hk Ha; cbn [match_updated];
    [exact Ha|].
  destruct (k_contains (last_segment u) k); [|now apply IH].
  assert (Hjoin : traceable leaves (KStr (k_join k))).
  { cbn. intros Hfree. destruct k as [p|s']; cbn [k_join] in *.
    - destruct Hk as [v' Hv'].
      destruct (join_colon_free _ Hfree) as [->|Hp].
      + now apply Hne in Hv'.
      + exists v'. now rewrite <- Hp.
    - pose proof (join_chars_colon_free _ Hfree) as E.
      rewrite E in Hfree |- *. exact (Hk Hfree). }
  apply IH; [assumption|assumption|].
  cbn [observed]. intros s Hs.
  apply in_app_or in Hs as [Hs|[<-|[]]]; [now apply Ha|assumption].
Qed.

Lemma observe_traceable leaves us ls : forall a,
  (forall p v', In (p, v') leaves -> p <> []) ->
  incl ls leaves ->
  (forall s, In s (observed a) -> traceable leaves (KStr s)) ->
  forall s, In s (observed (observe us ls a)) -> traceable leaves (KStr s).
Proof.
  induction ls as [|[k v] tl IH]; intros a Hne Hincl Ha; cbn [observe fst snd];
    [exact Ha|].
  apply IH; [assumption|intros x Hx; apply Hincl; now right|].
  apply match_updated_traceable; [assumption| |assumption].
  exists v. apply Hincl. now left.
Qed.

(** A colon-free name without a top-level leaf is not observed. *)
Lemma not_observed (c : tree) us n :
  has_colon n = false -> no_top_leaf n c ->
  ~ In n (observed (observe us (recursive_config_reader c)
                      {| observed := []; info := [] |})).
Proof.
  intros Hfree Hno Hin.
  apply (observe_traceable (recursive_config_reader c)) in Hin.
  - destruct (Hin Hfree) as [v Hv]. apply reader_top_leaf in Hv.
    now apply (Hno v).
  - intros p v'. apply reader_nonempty.
  - intros x Hx. exact Hx.
  - intros s [].
Qed.

(** C9, as amended: turn by turn, a declared name that contains a colon
    gets one suggested value, applied by the path update, and a
    colon-free name that is a top-level key of the tree gets one, assigned
    to that key; a colon-free name that is not a top-level key gets no
    suggestion and leaves the tree as it is.  Over the whole call, no
    name gets two suggestions, every name with a colon gets one, and every
    declared name that got none is among the unmatched names, each of
    which is reported by a warning while the call returns the tree. *)
Theorem update_config_guarded :
  (forall t p n spec v,
      trial_suggest_loader t spec = Ok v ->
      (has_colon n = true ->
       exists c,
         recursive_update (split_colon n) (conf p) (Leaf v) = Ok c
         /\ update_one trial_suggest_loader t p (n, spec)
            = Ok {| conf := c;
                    updated := updated p ++ [n];
                    suggested := suggested p ++ [(n, spec)] |}
         /\ In (split_colon n, v) (recursive_config_reader c))
      /\ (has_colon n = false -> dict_mem n (conf p) = true ->
          update_one trial_suggest_loader t p (n, spec)
          = Ok {| conf := dict_set n (Leaf v) (conf p);
                  updated := updated p ++ [n];
                  suggested := suggested p ++ [(n, spec)] |}
          /\ In ([n], v) (recursive_config_reader (dict_set n (Leaf v) (conf p)))))
  /\ (forall t p n spec,
        has_colon n = false -> dict_mem n (conf p) = false ->
        update_one trial_suggest_loader t p (n, spec) = Ok p)
  /\ (forall config t hyperparameters out,
        parameters config = Ok hyperparameters ->
        NoDup (keys hyperparameters) ->
        update_config trial_suggest_loader config t = Ok out ->
        NoDup (map fst (suggestions out))
        /\ incl (suggestions out) hyperparameters
        /\ (forall n spec, In (n, spec) hyperparameters -> has_colon n = true ->
                           In (n, spec) (suggestions out))
        /\ (forall n, In n (keys hyperparameters) ->
                      ~ In n (map fst (suggestions out)) ->
                      has_colon n = false /\ In n (unmatched out))
        /\ (forall n, In n (unmatched out) ->
                      In (not_auto_updated n) (warnings out))).
Proof.
  split; [|split].
  - intros t p n spec v Hv. split.
    + intros Hc.
      destruct (recursive_update_ok (split_colon n) (conf p) (Leaf v)
                  (split_colon_nonempty n)) as [c Hup].
      exists c. split; [exact Hup|split].
      * unfold update_one. cbn [fst snd]. now rewrite Hc, Hv, Hup.
      * apply (recursive_update_applied _ _ _ _ [] Hup).
    + intros Hc Hmem. split.
      * unfold update_one. cbn [fst snd]. now rewrite Hc, Hmem, Hv.
      * unfold recursive_config_reader.
        apply (flatten_entry [] _ n (Leaf v)); [apply dict_set_has|now left].
  - intros t p n spec Hc Hmem.
    unfold update_one. cbn [fst snd]. now rewrite Hc, Hmem.
  - intros config t hyperparameters out Hpar Hnd.
    unfold update_config. rewrite Hpar.
    destruct (update_all trial_suggest_loader t _ hyperparameters) as [p|e] eqn:Eall;
      [|discriminate].
    intros [= <-]. cbn [suggestions unmatched warnings].
    destruct (update_all_suggested _ _ _ _ Eall) as (extra & Hs & Hincl & Hndx).
    cbn [suggested app] in Hs.
    split; [rewrite Hs; now apply Hndx|].
    split; [now rewrite Hs|].
    split; [intros n spec Hin Hc; now apply (update_all_colon _ _ _ _ _ _ Eall)|].
    split.
    + intros n Hin Hnot.
      destruct (update_all_skipped _ _ _ _ _ Eall Hnd Hin Hnot) as [Hc Hno].
      split; [assumption|].
      unfold not_updated. apply filter_In. split; [assumption|].
      apply Bool.negb_true_iff.
      destruct (mem_str n _) eqn:Em; [|reflexivity].
      apply mem_str_In in Em. now apply not_observed in Em.
    + intros n Hin. unfold warn. apply in_or_app. left. now apply in_map.
Qed.

End ConfigureFacts.

(** ** [update_config] on sample data *)

Section ConfigureExamples.
Import Config Objective Sample.

(** C9 as stated fails for a declared name without colon that is not a
    top-level key: no suggestion is asked for [lr], the tree comes back
    unchanged, and the name is only warned about. *)
Lemma plain_name_gets_no_suggestion :
  exists hyperparameters out,
    parameters config_plain_name = Ok hyperparameters
    /\ In "lr" (keys hyperparameters)
    /\ update_config suggest_constant config_plain_name trial_0 = Ok out
    /\ suggestions out = []
    /\ new_conf out = config_plain_name
    /\ unmatched out = ["lr"].
Proof.
  eexists. eexists. split; [reflexivity|]. split; [now left|].
  split; [reflexivity|]. repeat split.
Qed.

(** Declared with its path, the same parameter gets the suggested value. *)
Example path_name_gets_suggestion :
  exists out,
    update_config suggest_constant config_path_name trial_0 = Ok out
    /\ suggestions out = [("model:lr", float_spec "lr")]
    /\ In (["model"; "lr"], VFloat 0.05) (recursive_config_reader (new_conf out))
    /\ unmatched out = [].
Proof.
  eexists. split; [reflexivity|]. split; [reflexivity|].
  split; [cbn; now left|reflexivity].
Qed.

End ConfigureExamples.

(** ** [save]: more on the results file *)

Section SaveMore.
Import Frame Objective.

(** A check that passes has found every required name. *)
Lemma check_metrics_ok metric rd (a a' : adapter) :
  check_metrics metric rd a = (a', Ok tt) ->
  forall m, In m (required metric) -> dict_mem m rd = true.
Proof.
  assert (Hone : forall m (b b' : adapter),
             assert_metric m rd b = (b', Ok tt) -> dict_mem m rd = true).
  { intros m b b'. unfold assert_metric.
    destruct (dict_mem m rd); [reflexivity|discriminate]. }
  destruct metric as [m0|ms]; cbn [check_metrics required].
  - intros H m [<-|[]]. eapply Hone, H.
  - revert a. induction ms as [|m0 ms IH]; intros a H m Hin; [destruct Hin|].
    cbn [for_each] in H.
    apply bind_inv in H as [(e & _ & [=])|(a1 & [] & H0 & H)].
    destruct Hin as [<-|Hin]; [eapply Hone, H0|eapply IH; eauto].
Qed.

(** Persisting writes the file last: when it raises, nothing has changed. *)
Lemma persist_raise (a a' : adapter) e :
  persist a = (a', Raise e) -> a' = a.
Proof.
  unfold persist, bind, lift, ret, to_csv.
  destruct (from_dict (results a)) as [mdf|e0]; [|now intros [= <-]].
  destruct (results_file a) as [file|].
  - destruct (read_csv file (columns mdf)) as [other|e1]; [|now intros [= <-]].
    destruct (dedup_sort (concat mdf other)) as [df|e2]; [discriminate|].
    now intros [= <-].
  - destruct (dedup_sort mdf) as [df|e2]; [discriminate|]. now intros [= <-].
Qed.

(** X1: [save] writes the results file only as its last effect: a call
    that raises, whatever the error, leaves the file as it was. *)
Theorem save_raise_keeps_file metric t rd (a a' : adapter) e :
  save metric t rd a = (a', Raise e) -> results_file a' = results_file a.
Proof.
  unfold save. intros H.
  apply bind_inv in H as [(e0 & H0 & _)|(a0 & [] & H0 & H)].
  { now apply check_metrics_inv in H0 as [-> _]. }
  pose proof (check_metrics_ok _ _ _ _ H0) as Hreq.
  apply check_metrics_inv in H0 as [-> _].
  apply bind_inv in H as [(e1 & H1 & _)|(a1 & [] & H1 & H)].
  { now apply record_trial_inv in H1 as (Hf & _). }
  apply record_trial_inv in H1 as (Hf1 & _).
  apply bind_inv in H as [(e2 & H2 & _)|(a2 & [] & H2 & H)].
  { apply persist_raise in H2. congruence. }
  exfalso. destruct metric as [m|ms].
  - unfold lift, getitem in H. specialize (Hreq m ltac:(now left)).
    unfold dict_mem in Hreq. destruct (dict_get m rd); [|discriminate].
    now inversion H.
  - apply bind_inv in H as [(e3 & H3 & _)|(a3 & es & H3 & H)].
    + apply lookups_inv in H3 as (_ & (es & [=] & _) & _).
    + cbn in H. discriminate.
Qed.

Lemma save_raise_keeps_file_witness :
  results_file
    (fst (save (Single "val_loss") Sample.trial_2
            [("val_loss", VFloat 0.5); ("epochs", VInt 10)] Sample.fresh_worker))
  = results_file Sample.fresh_worker.
Proof.
  refine (save_raise_keeps_file (Single "val_loss") Sample.trial_2
            [("val_loss", VFloat 0.5); ("epochs", VInt 10)] Sample.fresh_worker
            _ (ValueError "Usecols do not match columns") _).
  vm_compute. reflexivity.
Defined.

Lemma drop_dups_keys rs : forall seen z,
  In z (map fst rs) -> ~ In z seen -> In z (map fst (drop_dups seen rs)).
Proof.
  induction rs as [|[z0 r0] tl IH]; intros seen z; cbn; [tauto|].
  intros Hin Hseen. destruct (mem_Z z0 seen) eqn:E0.
  - apply IH; [|assumption].
    destruct Hin as [->|Hin]; [|assumption].
    apply mem_Z_In in E0. contradiction.
  - cbn. destruct (Z.eq_dec z0 z) as [->|Hne]; [now left|right].
    apply IH; [destruct Hin; [contradiction|assumption]|].
    intros [->|H]; tauto.
Qed.

(** The frame of the ledger has a column for every key. *)
Lemma record_trial_trial_column t rd (a a1 : adapter) :
  record_trial t rd a = (a1, Ok tt) ->
  exists l, dict_get "trial" (results a1) = Some (Col l)
            /\ (List.length (column "trial" (results a)) < List.length l)%nat
            /\ In (VInt (number t)) l.
Proof.
  intros H. apply record_trial_columns in H as [_ Hcols].
  specialize (Hcols "trial" ltac:(discriminate)).
  unfold written, appended in Hcols. cbn [filter fst String.eqb Ascii.eqb Bool.eqb] in Hcols.
  cbn [map snd] in Hcols.
  eexists. split; [exact Hcols|]. split.
  - rewrite length_app. cbn. lia.
  - apply in_or_app. right. now left.
Qed.

(** A successful [save] keeps the trial numbers of the results file:
    every row the file had is still represented, by its trial number, in
    the file written back. *)
Theorem save_keeps_file_trials metric t rd (a a' : adapter) v file r z :
  save metric t rd a = (a', Ok v) ->
  results_file a = Some file ->
  In r (rows file) ->
  trial_of r = Ok z ->
  exists df ns,
    results_file a' = Some df /\ trial_numbers df = Ok ns /\ In z ns.
Proof.
  intros H Hfile Hr Hz.
  apply save_inv in H as (a1 & a2 & pout & Hrec & Hper & Hf' & _ & Hok);
    [|exact I].
  rewrite (Hok v eq_refl) in Hper.
  pose proof (record_trial_inv _ _ _ _ _ Hrec) as (Hf1 & _).
  destruct (record_trial_trial_column _ _ _ _ Hrec) as (lt & Htrial & _).
  apply persist_inv in Hper as (_ & _ & Hper).
  destruct (Hper eq_refl) as (mdf & full & df & Hmdf & Hmerged & Hds & Hdf).
  rewrite Hf1, Hfile in Hmerged. destruct Hmerged as (other & Hread & ->).
  apply from_dict_inv in Hmdf as (Hcolumns & _).
  assert (Htc : In "trial" (columns mdf)).
  { rewrite Hcolumns. eapply dict_get_in_keys, Htrial. }
  (* the row as read, then as merged *)
  unfold read_csv in Hread.
  destruct (forallb _ (columns mdf)) eqn:Eall; [|discriminate].
  injection Hread as <-.
  rewrite forallb_forall in Eall.
  assert (Hcell : dict_get "trial" r = Some (VInt z)).
  { unfold trial_of in Hz. destruct (dict_get "trial" r) as [[]|]; try discriminate.
    now injection Hz as ->. }
  set (cols_o := filter (fun c => mem_str c (columns mdf)) (columns file)) in *.
  assert (Hto : In "trial" cols_o).
  { apply filter_In. split; [apply mem_str_In, Eall, Htc|now apply mem_str_In]. }
  apply dedup_sort_inv in Hds as (krs & Hkrs & _ & Hns & _).
  exists df, (map fst (sort_rows (drop_dups [] krs))).
  split; [congruence|split; [assumption|]].
  apply In_map_fst_sort. apply drop_dups_keys; [|intros []].
  apply keyed_inv in Hkrs as [Hsnd Hkeyed].
  unfold concat in Hsnd. cbn [rows columns] in Hsnd.
  set (cols := columns mdf ++ _) in Hsnd.
  assert (Hin : In (reindex cols (reindex cols_o r)) (map snd krs)).
  { rewrite Hsnd. apply in_map. apply in_or_app. right. now apply in_map. }
  apply in_map_iff in Hin as ([z' r'] & Hr' & Hin). cbn in Hr'. subst r'.
  rewrite Forall_forall in Hkeyed. specialize (Hkeyed _ Hin). cbn in Hkeyed.
  unfold trial_of in Hkeyed.
  rewrite reindex_get in Hkeyed by (apply in_or_app; now left).
  rewrite reindex_get, Hcell in Hkeyed by assumption.
  injection Hkeyed as <-.
  apply in_map_iff. eexists. split; [|exact Hin]. reflexivity.
Qed.

Lemma save_keeps_file_trials_witness :
  exists df ns,
    results_file Sample.worker_after_trial_2 = Some df
    /\ trial_numbers df = Ok ns /\ In 3%Z ns.
Proof.
  refine (save_keeps_file_trials (Single "val_loss") Sample.trial_2
            [("val_loss", VFloat 0.5)] Sample.fresh_worker
            Sample.worker_after_trial_2 (VFloat 0.5) Sample.ledger_123
            (Sample.ledger_row 3 0.3 0.7) 3 _ eq_refl _ eq_refl).
  - vm_compute. reflexivity.
  - right. right. now left.
Defined.

Lemma appended_present k items :
  In k (keys items) -> appended k items <> [].
Proof.
  unfold appended, keys.
  induction items as [|[k0 v0] tl IH]; cbn; [tauto|].
  destruct (String.eqb k0 k) eqn:E; [discriminate|].
  apply String.eqb_neq in E. intros [H|H]; [congruence|now apply IH].
Qed.

(** After recording, the ledger has an entry for every name written. *)
Lemma record_trial_has_key t rd (a a1 : adapter) k :
  record_trial t rd a = (a1, Ok tt) ->
  In k (keys (written t rd)) ->
  exists e, dict_get k (results a1) = Some e.
Proof.
  intros H Hk. apply record_trial_columns in H as [Hpruned Hcols].
  destruct (String.eqb_spec k "pruned") as [->|Hne]; [eauto|].
  rewrite (Hcols k Hne).
  pose proof (appended_present _ _ Hk).
  destruct (appended k (written t rd)); [congruence|eauto].
Qed.

Lemma lookups_present ms : forall (a : adapter),
  (forall m, In m ms -> exists e, dict_get m (results a) = Some e) ->
  exists es, map_m lookup ms a = (a, Ok es).
Proof.
  induction ms as [|m ms IH]; intros a Hall; [now exists []|].
  destruct (Hall m ltac:(now left)) as [e He].
  destruct (IH a ltac:(intros m' Hm'; apply Hall; now right)) as [es Hes].
  exists (e :: es). cbn [map_m].
  erewrite bind_ok by (unfold lookup; rewrite He; reflexivity).
  erewrite bind_ok by exact Hes. reflexivity.
Qed.

(** A successful call leaves the ledger as the recording phase made it. *)
Lemma save_ok_results metric t rd (a a' : adapter) v :
  save metric t rd a = (a', Ok v) ->
  exists a1, record_trial t rd a = (a1, Ok tt) /\ results a' = results a1.
Proof.
  unfold save. intros H.
  apply bind_inv in H as [(e & _ & [=])|(a0 & [] & H0 & H)].
  pose proof (check_metrics_ok _ _ _ _ H0) as Hreq.
  apply check_metrics_inv in H0 as [-> _].
  apply bind_inv in H as [(e & _ & [=])|(a1 & [] & H1 & H)].
  exists a1. split; [assumption|].
  apply bind_inv in H as [(e & _ & [=])|(a2 & [] & H2 & H)].
  apply persist_inv in H2 as (Hres & _).
  destruct metric as [m|ms].
  - unfold lift in H. injection H as <- _. assumption.
  - destruct (lookups_present ms a2) as [es Hes].
    { intros m Hm. rewrite Hres.
      apply (record_trial_has_key _ _ _ _ _ H1).
      unfold written, keys. cbn [map fst]. right. rewrite map_app.
      apply in_or_app. right.
      specialize (Hreq m Hm). unfold dict_mem in Hreq.
      destruct (dict_get m rd) eqn:E; [|discriminate].
      eapply dict_get_in_keys, E. }
    erewrite bind_ok in H by exact Hes. cbn in H. injection H as <- _.
    assumption.
Qed.





(** Lists of different lengths make no frame. *)
Lemma from_dict_ragged d k l k' l' :
  dict_get k d = Some (Col l) ->
  dict_get k' d = Some (Col l') ->
  List.length l <> List.length l' ->
  exists msg, from_dict d = Raise (ValueError msg).
Proof.
  intros Hk Hk' Hne. destruct (from_dict d) as [df|e] eqn:E.
  - apply from_dict_inv in E as (_ & n & _ & Hlen).
    pose proof (Hlen _ _ (dict_get_In _ _ _ Hk)).
    pose proof (Hlen _ _ (dict_get_In _ _ _ Hk')). congruence.
  - apply from_dict_raise in E as [msg ->]. eauto.
Qed.

(** A call that got past the recording phase ends as persisting ends:
    with its error, or with a value. *)
Lemma save_after_recording metric t rd (a a' : adapter) out :
  save metric t rd a = (a', out) ->
  past_recording out ->
  exists a1,
    record_trial t rd a = (a1, Ok tt)
    /\ ((exists e, persist a1 = (a', Raise e) /\ out = Raise e)
        \/ (exists a2 v, persist a1 = (a2, Ok tt) /\ out = Ok v)).
Proof.
  unfold save. intros H Hpast.
  apply bind_inv in H as [(e & H0 & ->)|(a0 & [] & H0 & H)].
  { apply check_metrics_inv in H0 as [_ He].
    destruct (He e eq_refl) as [msg ->]. destruct Hpast. }
  pose proof (check_metrics_ok _ _ _ _ H0) as Hreq.
  apply check_metrics_inv in H0 as [-> _].
  apply bind_inv in H as [(e & H1 & ->)|(a1 & [] & H1 & H)].
  { apply record_trial_inv in H1 as (_ & He & _).
    destruct (He e eq_refl) as [msg ->]. destruct Hpast. }
  exists a1. split; [assumption|].
  apply bind_inv in H as [(e & H2 & ->)|(a2 & [] & H2 & H)].
  { left. now exists e. }
  right. exists a2. destruct out as [v|e]; [now exists v|exfalso].
  destruct metric as [m|ms].
  - unfold lift, getitem in H. specialize (Hreq m ltac:(now left)).
    unfold dict_mem in Hreq. destruct (dict_get m rd); [|discriminate].
    now inversion H.
  - apply bind_inv in H as [(e3 & H3 & _)|(a3 & es & H3 & H)].
    + apply lookups_inv in H3 as (_ & (es & [=] & _) & _).
    + cbn in H. discriminate.
Qed.

(** X4: a trial that does not write to a column the in-memory ledger
    already has (a parameter of another branch of a conditional search
    space, a metric not returned this time) makes the lists unequal: once
    past the metric check and the appends, [save] raises [ValueError], and
    the trial stays in the in-memory ledger. *)
Theorem save_ragged_raises metric t rd (a a' : adapter) out k l :
  save metric t rd a = (a', out) ->
  past_recording out ->
  dict_get k (results a) = Some (Col l) ->
  k <> "pruned" ->
  ~ In k (keys (written t rd)) ->
  (List.length l <= List.length (column "trial" (results a)))%nat ->
  (exists msg, out = Raise (ValueError msg))
  /\ In (VInt (number t)) (column "trial" (results a')).
Proof.
  intros H Hpast Hk Hnp Hnw Hlen.
  destruct (save_after_recording _ _ _ _ _ _ H Hpast) as (a1 & Hrec & Hend).
  destruct (record_trial_trial_column _ _ _ _ Hrec) as (lt & Htrial & Hlt & Hin).
  pose proof (record_trial_columns _ _ _ _ Hrec) as [_ Hcols].
  specialize (Hcols k Hnp). rewrite (appended_absent _ _ Hnw), Hk in Hcols.
  destruct (from_dict_ragged _ _ _ _ _ Hcols Htrial ltac:(lia)) as [msg Hfd].
  assert (Hper : persist a1 = (a1, Raise (ValueError msg))).
  { unfold persist, bind, lift. now rewrite Hfd. }
  rewrite Hper in Hend.
  destruct Hend as [(e & [= <- <-] & ->)|(a2 & v & [=] & _)].
  split; [now exists msg|].
  unfold column. now rewrite Htrial.
Qed.

Lemma save_ragged_raises_witness :
  (exists msg,
      snd (save (Single "val_loss") Sample.trial_3_without_lr
             [("val_loss", VFloat 0.4)] Sample.worker_after_trial_2)
      = Raise (ValueError msg))
  /\ In (VInt 3)
        (column "trial"
           (results (fst (save (Single "val_loss") Sample.trial_3_without_lr
                            [("val_loss", VFloat 0.4)]
                            Sample.worker_after_trial_2)))).
Proof.
  refine (save_ragged_raises (Single "val_loss") Sample.trial_3_without_lr
            [("val_loss", VFloat 0.4)] Sample.worker_after_trial_2
            _ _ "lr" [VFloat 0.05] _ _ eq_refl _ _ _).
  - vm_compute. reflexivity.
  - exact I.
  - discriminate.
  - cbn. intuition discriminate.
  - cbn. lia.
Defined.

Lemma dict_get_app {A} k (d d' : dict A) :
  dict_get k (d ++ d')
  = match dict_get k d with Some v => Some v | None => dict_get k d' end.
Proof.
  induction d as [|[k0 v0] tl IH]; cbn; [reflexivity|].
  now destruct (String.eqb k k0).
Qed.

Lemma dict_set_new {A} k (v : A) d :
  dict_get k d = None -> dict_set k v d = d ++ [(k, v)].
Proof.
  induction d as [|[k0 v0] tl IH]; cbn; [reflexivity|].
  destruct (String.eqb k k0); [discriminate|]. intros H. now rewrite IH.
Qed.

(** Appending names the ledger does not have yet adds one column each. *)
Lemma append_all_fresh items : forall (a : adapter),
  NoDup (keys items) ->
  (forall k, In k (keys items) -> dict_get k (results a) = None) ->
  append_all items a
  = ({| results := results a ++ map (fun kv => (fst kv, Col [snd kv])) items;
        results_file := results_file a |}, Ok tt).
Proof.
  unfold append_all.
  induction items as [|[k v] tl IH]; intros a Hnd Hnew.
  - cbn. rewrite app_nil_r. now destruct a.
  - cbn [for_each fst snd]. inversion Hnd as [|? ? Hk Htl]; subst.
    erewrite bind_ok.
    2:{ unfold append. rewrite (Hnew k ltac:(now left)). reflexivity. }
    rewrite IH; [|assumption|].
    + cbn [results results_file map fst snd].
      rewrite dict_set_new by (apply Hnew; now left).
      now rewrite <- app_assoc.
    + intros k' Hk'. cbn [results].
      rewrite dict_set_new by (apply Hnew; now left).
      rewrite dict_get_app, (Hnew k' ltac:(now right)). cbn.
      destruct (String.eqb_spec k' k) as [->|_]; [contradiction|reflexivity].
Qed.

Lemma check_metrics_present metric rd (a : adapter) :
  (forall m, In m (required metric) -> dict_mem m rd = true) ->
  check_metrics metric rd a = (a, Ok tt).
Proof.
  destruct metric as [m|ms]; cbn [required check_metrics]; intros H.
  - apply assert_metric_present, H. now left.
  - induction ms as [|m0 ms IH]; [reflexivity|]. cbn [for_each].
    erewrite bind_ok by (apply assert_metric_present, H; now left).
    apply IH. intros m Hm. apply H. now right.
Qed.

Lemma from_dict_nonempty d :
  d <> [] ->
  from_dict d
  = match col_lengths d with
    | [] => Raise (ValueError "If using all scalar values, you must pass an index")
    | n :: ns =>
        if forallb (Nat.eqb n) ns
        then Ok {| columns := keys d; rows := map (row_at d) (seq 0 n) |}
        else Raise (ValueError "All arrays must be of the same length")
    end.
Proof. destruct d; [congruence|reflexivity]. Qed.

Lemma first_ledger_lengths items e :
  col_lengths (map (fun kv : string * pyval => (fst kv, Col [snd kv])) items
               ++ [("pruned", Scalar e)])
  = map (fun _ => 1%nat) items.
Proof. induction items as [|kv tl IH]; cbn; [reflexivity|now rewrite <- IH]. Qed.

Lemma first_ledger_row items e :
  row_at (map (fun kv : string * pyval => (fst kv, Col [snd kv])) items
          ++ [("pruned", Scalar e)]) 0
  = items ++ [("pruned", e)].
Proof.
  unfold row_at. rewrite map_app, map_map. cbn.
  f_equal. induction items as [|[k v] tl IH]; cbn; [reflexivity|now rewrite IH].
Qed.

(** X7: the first trial of a process saves: on a freshly set-up adapter
    without results file, when every required metric is in the results
    mapping and the names written are pairwise distinct and not reserved,
    [save] returns a value, the in-memory ledger holds one cell per name,
    and the file written is the one row of the trial. *)
Theorem save_first_trial metric t rd :
  NoDup ("trial" :: "pruned" :: keys (params t) ++ keys rd) ->
  (forall m, In m (required metric) -> dict_mem m rd = true) ->
  exists v,
    save metric t rd (summoned None)
    = ({| results := first_ledger t rd;
          results_file := Some (first_frame t rd) |}, Ok v).
Proof.
  intros Hnames Hreq.
  assert (Hkeys : NoDup (keys (written t rd))
                  /\ ~ In "pruned" (keys (written t rd))).
  { unfold written, keys. cbn [map fst]. rewrite map_app.
    inversion Hnames as [|? ? Ht Hrest]; subst.
    inversion Hrest as [|? ? Hp Hrest']; subst. cbn in Ht.
    split; [constructor; tauto|].
    intros [Heq|Hin]; [discriminate|contradiction]. }
  destruct Hkeys as [Hnd Hnp].
  set (a1 := {| results := first_ledger t rd; results_file := None |}).
  assert (Hrec : record_trial t rd (summoned None) = (a1, Ok tt)).
  { rewrite record_trial_written.
    erewrite bind_ok by (apply append_all_fresh; [assumption|reflexivity]).
    unfold setitem, a1, first_ledger. cbn [results results_file summoned app].
    rewrite dict_set_new; [reflexivity|].
    apply dict_get_keys. unfold keys. rewrite map_map. cbn [fst].
    exact Hnp. }
  set (a2 := {| results := first_ledger t rd;
                results_file := Some (first_frame t rd) |}).
  assert (Hper : persist a1 = (a2, Ok tt)).
  { unfold persist, a1. cbn [results results_file].
    assert (Hfd : from_dict (first_ledger t rd)
                  = Ok {| columns := keys (first_ledger t rd);
                          rows := [written t rd ++ [("pruned", pruned_flag t)]] |}).
    { rewrite from_dict_nonempty by (unfold first_ledger, written; discriminate).
      unfold first_ledger at 1. rewrite first_ledger_lengths.
      unfold written at 1. cbn [map].
      replace (forallb (Nat.eqb 1) _) with true.
      - cbn [seq map]. unfold first_ledger at 2. now rewrite first_ledger_row.
      - symmetry. apply forallb_forall. intros n Hn.
        apply in_map_iff in Hn as (? & <- & _). reflexivity. }
    unfold bind, lift, ret. rewrite Hfd.
    unfold dedup_sort, keyed, written. cbn.
    unfold to_csv, a2, first_frame, first_ledger, written, keys. cbn.
    repeat f_equal. rewrite !map_app, !map_map. cbn. reflexivity. }
  unfold save.
  erewrite bind_ok by now apply check_metrics_present.
  erewrite bind_ok by exact Hrec.
  erewrite bind_ok by exact Hper.
  destruct metric as [m|ms].
  - specialize (Hreq m ltac:(now left)). unfold dict_mem in Hreq.
    unfold lift, getitem. destruct (dict_get m rd) as [v|]; [|discriminate].
    now exists v.
  - destruct (lookups_present ms a2) as [es Hes].
    { intros m Hm. apply (record_trial_has_key t rd _ a1 m Hrec).
      unfold written, keys. cbn [map fst]. right. rewrite map_app.
      apply in_or_app. right.
      specialize (Hreq m Hm). unfold dict_mem in Hreq.
      destruct (dict_get m rd) eqn:E; [|discriminate].
      eapply dict_get_in_keys, E. }
    erewrite bind_ok by exact Hes. eexists. reflexivity.
Qed.

Lemma save_first_trial_witness :
  exists v,
    save (Single "val_loss") Sample.trial_0 Sample.two_metrics (summoned None)
    = ({| results := first_ledger Sample.trial_0 Sample.two_metrics;
          results_file := Some (first_frame Sample.trial_0 Sample.two_metrics) |},
       Ok v).
Proof.
  apply (save_first_trial (Single "val_loss") Sample.trial_0 Sample.two_metrics).
  - repeat constructor; cbn; intuition discriminate.
  - intros m [<-|[]]. reflexivity.
Defined.

Lemma save_single_returns_metric_witness :
  dict_get "val_loss" Sample.two_metrics = Some (VFloat 0.5).
Proof.
  refine (save_single_returns_metric "val_loss" Sample.trial_0 Sample.two_metrics
            (summoned None) _ (VFloat 0.5) _).
  vm_compute. reflexivity.
Defined.

Lemma save_multi_returns_columns_witness :
  exists es,
    VList [VList [VFloat 0.5]; VList [VFloat 0.75]] = VList (map pyval_of_entry es)
    /\ Forall2
         (fun m e =>
            dict_get m
              (results (fst (save (Multi ["val_loss"; "val_accuracy"])
                               Sample.trial_0 Sample.two_metrics (summoned None))))
            = Some e)
         ["val_loss"; "val_accuracy"] es.
Proof.
  refine (save_multi_returns_columns ["val_loss"; "val_accuracy"] Sample.trial_0
            Sample.two_metrics (summoned None) _ _ _).
  vm_compute. reflexivity.
Defined.

End SaveMore.

(** ** [update_config]: what it reports and what it leaves alone *)

Section ConfigureMore.
Import Config Objective.

Variable trial_suggest_loader : trial -> node -> result pyval.

(** Splitting at the colons and joining with colons gives the name back. *)
Lemma join_split_colon (s : string) : join_colon (split_colon s) = s.
Proof.
  induction s as [|c s IH]; [reflexivity|]. cbn [split_colon].
  destruct (Ascii.eqb_spec c colon) as [->|Hne].
  - destruct (split_colon s) as [|seg segs] eqn:E.
    + now apply split_colon_nonempty in E.
    + cbn [join_colon] in *. now rewrite IH.
  - destruct (split_colon s) as [|seg segs] eqn:E.
    + now apply split_colon_nonempty in E.
    + cbn [join_colon] in *. destruct segs; cbn; now rewrite <- IH.
Qed.

Lemma split_colon_free (s : string) :
  has_colon s = false -> split_colon s = [s].
Proof.
  induction s as [|c s IH]; [reflexivity|]. cbn.
  destruct (Ascii.eqb c colon); [discriminate|].
  intros H. now rewrite (IH H).
Qed.

Lemma last_segment_in (n : string) : In (last_segment n) (split_colon n).
Proof.
  unfold last_segment. pose proof (split_colon_nonempty n) as Hne.
  induction (split_colon n) as [|s l IH]; [congruence|].
  destruct l as [|s' l']; [now left|].
  right. apply IH. discriminate.
Qed.

Lemma match_updated_mono v us : forall k a s,
  In s (observed a) -> In s (observed (match_updated v us k a)).
Proof.
  induction us as [|u tl IH]; intros k a s Hs; cbn [match_updated]; [assumption|].
  destruct (k_contains (last_segment u) k); apply IH; [|assumption].
  cbn. apply in_or_app. now left.
Qed.

Lemma observe_mono us leaves : forall a s,
  In s (observed a) -> In s (observed (observe us leaves a)).
Proof.
  induction leaves as [|kv tl IH]; intros a s Hs; cbn [observe]; [assumption|].
  apply IH. now apply match_updated_mono.
Qed.

(** A path that holds the last segment of some updated name is observed
    under its joined name. *)
Lemma match_updated_hit v us p : forall a,
  (exists u, In u us /\ mem_str (last_segment u) p = true) ->
  In (join_colon p) (observed (match_updated v us (KPath p) a)).
Proof.
  induction us as [|u tl IH]; intros a (u0 & Hin & Hmem); [destruct Hin|].
  cbn [match_updated k_contains].
  destruct (mem_str (last_segment u) p) eqn:E.
  - apply match_updated_mono. cbn. apply in_or_app. right. now left.
  - apply IH. exists u0. split; [|assumption].
    destruct Hin as [->|Hin]; [congruence|assumption].
Qed.

Lemma observe_hit us leaves p v : forall a,
  In (p, v) leaves ->
  (exists u, In u us /\ mem_str (last_segment u) p = true) ->
  In (join_colon p) (observed (observe us leaves a)).
Proof.
  induction leaves as [|kv tl IH]; intros a Hin Hu; [destruct Hin|].
  cbn [observe]. destruct Hin as [->|Hin].
  - apply observe_mono. cbn [fst snd]. now apply match_updated_hit.
  - now apply IH.
Qed.

(** The names updated are the names that got a suggestion. *)
Lemma update_all_updated t items : forall p p',
  update_all trial_suggest_loader t p items = Ok p' ->
  updated p = map fst (suggested p) ->
  updated p' = map fst (suggested p').
Proof.
  induction items as [|[m spec] tl IH]; intros p p'; cbn [update_all].
  - now intros [= <-].
  - destruct (update_one trial_suggest_loader t p (m, spec)) as [p1|e] eqn:E1;
      [|discriminate].
    intros H Hp. apply (IH p1 p' H).
    apply update_one_inv in E1 as [(-> & _)|(v & _ & Hs & Hu & _)];
      [assumption|].
    rewrite Hs, Hu, Hp, map_app. reflexivity.
Qed.

(** X8: a declared name that got a suggestion and whose path still ends
    in a leaf of the returned tree is not among the names reported as not
    updated. *)
Theorem suggested_leaf_not_reported config t out n v :
  update_config trial_suggest_loader config t = Ok out ->
  In n (map fst (suggestions out)) ->
  In (split_colon n, v) (recursive_config_reader (new_conf out)) ->
  ~ In n (unmatched out).
Proof.
  unfold update_config.
  destruct (parameters config) as [hyperparameters|e]; [|discriminate].
  destruct (update_all trial_suggest_loader t _ hyperparameters) as [p|e] eqn:Eall;
    [|discriminate].
  intros [= <-]. cbn [suggestions new_conf unmatched].
  intros Hsug Hleaf Hun.
  apply update_all_updated in Eall; [|reflexivity].
  unfold not_updated in Hun. apply filter_In in Hun as [_ Hun].
  apply Bool.negb_true_iff in Hun.
  assert (Hobs : mem_str n (observed (observe (updated p)
                   (recursive_config_reader (conf p))
                   {| observed := []; info := [] |})) = true).
  { apply mem_str_In. rewrite <- (join_split_colon n) at 1.
    apply (observe_hit _ _ _ v); [assumption|].
    exists n. split; [now rewrite Eall|].
    apply mem_str_In, last_segment_in. }
  congruence.
Qed.

End ConfigureMore.

Lemma suggested_leaf_not_reported_witness :
  exists out,
    Objective.update_config Sample.suggest_constant Sample.config_path_name
      Sample.trial_0 = Ok out
    /\ ~ In "model:lr" (Objective.unmatched out).
Proof.
  eexists. split; [reflexivity|].
  refine (suggested_leaf_not_reported Sample.suggest_constant
            Sample.config_path_name Sample.trial_0 _ "model:lr" (VFloat 0.05)
            eq_refl _ _).
  - now left.
  - cbn. now left.
Defined.

Section ConfigureFrame.
Import Config Objective.

Variable trial_suggest_loader : trial -> node -> result pyval.

(** The top-level key a declared name addresses: the name itself, or its
    first segment. *)
Lemma update_one_top_key t p m spec p' :
  update_one trial_suggest_loader t p (m, spec) = Ok p' ->
  p' = p
  \/ exists e, conf p' = dict_set (hd m (split_colon m)) e (conf p).
Proof.
  intros H.
  apply update_one_inv in H
    as [(-> & _)|(v & _ & _ & _ & [(Hc & Hup)|(Hc & _ & Hset)])];
    [now left| |]; right.
  - destruct (split_colon_two m Hc) as (k & k' & rest & Hsplit).
    rewrite Hsplit in Hup |- *.
    destruct (recursive_update_deep k k' rest (conf p) (Leaf v)) as [sub Hdeep].
    rewrite Hdeep in Hup. injection Hup as <-. now exists (Map sub).
  - rewrite (split_colon_free m Hc). now exists (Leaf v).
Qed.

Lemma dict_mem_set {A} k (v : A) d k' :
  dict_mem k' d = true -> dict_mem k' (dict_set k v d) = true.
Proof.
  unfold dict_mem. destruct (String.eqb_spec k' k) as [->|Hne].
  - now rewrite dict_get_set_same.
  - now rewrite dict_get_set_other.
Qed.

Lemma update_all_frame t items k : forall p p',
  update_all trial_suggest_loader t p items = Ok p' ->
  (dict_mem k (conf p) = true -> dict_mem k (conf p') = true)
  /\ ((forall n, In n (keys items) -> hd n (split_colon n) <> k) ->
      dict_get k (conf p') = dict_get k (conf p)).
Proof.
  induction items as [|[m spec] tl IH]; intros p p'; cbn [update_all].
  - intros [= <-]. now split.
  - destruct (update_one trial_suggest_loader t p (m, spec)) as [p1|e] eqn:E1;
      [|discriminate].
    intros H. destruct (IH p1 p' H) as [Hmem Hget].
    apply update_one_top_key in E1 as [->|[e He]].
    + split; [assumption|]. intros Hk. apply Hget.
      intros n Hn. apply Hk. now right.
    + split.
      * intros Hk. apply Hmem. rewrite He. now apply dict_mem_set.
      * intros Hk. rewrite Hget by (intros n Hn; apply Hk; now right).
        rewrite He. apply dict_get_set_other.
        intros ->. now apply (Hk m ltac:(now left)).
Qed.

(** X9: [update_config] removes no top-level key of the configuration,
    and a top-level key that no declared name addresses, as the name
    itself or as its first segment, keeps its value. *)
Theorem update_config_frame config t out hyperparameters k :
  update_config trial_suggest_loader config t = Ok out ->
  parameters config = Ok hyperparameters ->
  (dict_mem k config = true -> dict_mem k (new_conf out) = true)
  /\ ((forall n, In n (keys hyperparameters) -> hd n (split_colon n) <> k) ->
      dict_get k (new_conf out) = dict_get k config).
Proof.
  unfold update_config. intros H Hpar. rewrite Hpar in H.
  destruct (update_all trial_suggest_loader t _ hyperparameters) as [p|e] eqn:Eall;
    [|discriminate].
  injection H as <-. cbn [new_conf].
  apply (update_all_frame _ _ k) in Eall. exact Eall.
Qed.

End ConfigureFrame.

Lemma update_config_frame_witness :
  exists out,
    Objective.update_config Sample.suggest_constant Sample.config_path_name
      Sample.trial_0 = Ok out
    /\ dict_get "optuna" (Objective.new_conf out)
       = dict_get "optuna" Sample.config_path_name.
Proof.
  eexists. split; [reflexivity|].
  refine (proj2 (update_config_frame Sample.suggest_constant
                   Sample.config_path_name Sample.trial_0 _
                   [("model:lr", Sample.float_spec "lr")] "optuna"
                   eq_refl eq_refl) _).
  intros n [<-|[]]. discriminate.
Defined.

(** ** The wall time of the job *)

Section WallTimeFacts.
Import Config WallTime.

Lemma append_assoc_str (a b c : string) :
  ((a ++ b) ++ c)%string = (a ++ (b ++ c))%string.
Proof. induction a as [|x a IH]; cbn; [reflexivity|now rewrite IH]. Qed.

Lemma append_nil_str (a : string) : (a ++ "")%string = a.
Proof. induction a as [|x a IH]; cbn; [reflexivity|now rewrite IH]. Qed.

(** Without an occurrence of the separator nothing is split off. *)
Lemma split_by_none sep s : forall cur,
  is_substring sep s = false ->
  split_by sep s 0 cur = [(cur ++ s)%string].
Proof.
  induction s as [|c s IH]; intros cur; cbn [split_by is_substring].
  - intros _. now rewrite append_nil_str.
  - destruct (String.prefix sep (String c s)); [discriminate|].
    intros H. rewrite (IH _ H), append_assoc_str. reflexivity.
Qed.

(** An option [walltime=V] gives [V]. *)
Lemma after_walltime_value v :
  is_substring "walltime=" v = false ->
  after_walltime (VStr ("walltime=" ++ v)) = Ok (VStr v).
Proof.
  intros H. unfold after_walltime. cbn -[split_by].
  change (split_by "walltime=" (String "w" (String "a" (String "l" (String "l"
            (String "t" (String "i" (String "m" (String "e" (String "=" v)))))))))
            0 "")
    with (if String.prefix "" v
          then EmptyString :: split_by "walltime=" v 0 EmptyString
          else split_by "walltime=" (String "a" (String "l" (String "l"
                 (String "t" (String "i" (String "m" (String "e" (String "=" v))))))))
                 0 "w").
  destruct v; cbn [String.prefix]; rewrite (split_by_none _ _ _ H); reflexivity.
Qed.

(** Options without [walltime] are passed over. *)
Lemma scan_skip pre rest :
  (forall s, In s pre -> is_substring "walltime" s = false) ->
  scan (map VStr pre ++ rest) = scan rest.
Proof.
  induction pre as [|s pre IH]; intros H; [reflexivity|].
  cbn [map app scan has_walltime]. rewrite (H s) by now left.
  apply IH. intros s' Hs'. apply H. now right.
Qed.

Lemma index3_pbs hyper_config l :
  index3 "pbs" "batch" "l" hyper_config = Ok l ->
  dict_mem "pbs" hyper_config = true.
Proof.
  unfold index3, index, dict_mem.
  destruct (dict_get "pbs" hyper_config); [reflexivity|discriminate].
Qed.

(** X10: on a PBS job (no [slurm] section), when the resource list holds
    strings, the first option that has [walltime] in it is [walltime=V]
    and [V] has no further [walltime=], the wall time is [V], and the
    12-hour assumption is not made. *)
Theorem pbs_wall_time hyper_config pre v post :
  dict_mem "slurm" hyper_config = false ->
  index3 "pbs" "batch" "l" hyper_config
  = Ok (Leaf (VList (map VStr pre ++ VStr ("walltime=" ++ v) :: post))) ->
  (forall s, In s pre -> is_substring "walltime" s = false) ->
  is_substring "walltime=" v = false ->
  find_wall_time hyper_config
  = Got {| wall_time := Leaf (VStr v); assumed := false |}.
Proof.
  intros Hslurm Hl Hpre Hv. unfold find_wall_time.
  rewrite Hslurm, (index3_pbs _ _ Hl), Hl. cbn [iterate].
  rewrite (scan_skip _ _ Hpre). cbn [scan has_walltime].
  replace (is_substring "walltime" ("walltime=" ++ v)) with true
    by (destruct v; reflexivity).
  now rewrite (after_walltime_value _ Hv).
Qed.

Lemma pbs_wall_time_witness :
  find_wall_time Sample.pbs_config
  = Got {| wall_time := Leaf (VStr "06:00:00"); assumed := false |}.
Proof.
  refine (pbs_wall_time Sample.pbs_config ["select=1:ncpus=8:ngpus=1"] "06:00:00" []
            eq_refl eq_refl _ eq_refl).
  intros s [<-|[]]. reflexivity.
Defined.

(** No single character has [walltime] in it. *)
Lemma no_walltime_in_char c : is_substring "walltime" (String c "") = false.
Proof.
  cbn [is_substring String.prefix].
  destruct (ascii_dec "w" c); reflexivity.
Qed.

Lemma scan_chars s : scan (map VStr (chars s)) = Ok None.
Proof.
  induction s as [|c s IH]; [reflexivity|].
  cbn [chars map scan has_walltime].
  now rewrite no_walltime_in_char.
Qed.

(** X11: on a PBS job, when the resource list is written as one string
    instead of a list of options, the loop runs over its characters and
    finds no wall time in it, whatever the string says; and when it is a
    list of strings none of which has [walltime] in it, none is found
    either.  In both cases 12 hours are assumed, with the warning. *)
Theorem pbs_assumes_twelve_hours hyper_config l :
  dict_mem "slurm" hyper_config = false ->
  index3 "pbs" "batch" "l" hyper_config = Ok l ->
  (exists s, l = Leaf (VStr s))
  \/ (exists options, l = Leaf (VList (map VStr options))
                      /\ forall s, In s options ->
                                   is_substring "walltime" s = false) ->
  find_wall_time hyper_config = Got twelve_hours.
Proof.
  intros Hslurm Hl Hshape. unfold find_wall_time.
  rewrite Hslurm, (index3_pbs _ _ Hl), Hl.
  destruct Hshape as [[s ->]|(options & -> & Hnone)]; cbn [iterate].
  - now rewrite scan_chars.
  - rewrite <- (app_nil_r (map VStr options)), (scan_skip _ _ Hnone).
    reflexivity.
Qed.

Lemma pbs_assumes_twelve_hours_witness :
  find_wall_time Sample.pbs_config_one_string = Got twelve_hours.
Proof.
  refine (pbs_assumes_twelve_hours Sample.pbs_config_one_string _
            eq_refl eq_refl _).
  left. eexists. reflexivity.
Defined.

(** X12: the wall time is an unassigned variable at line 179 exactly when
    the hyperparameter configuration has neither a [slurm] nor a [pbs]
    section; no other configuration ends in that error. *)
Theorem wall_time_unbound hyper_config :
  find_wall_time hyper_config = Failed (UnboundLocalError "wall_time")
  <-> dict_mem "slurm" hyper_config = false
      /\ dict_mem "pbs" hyper_config = false.
Proof.
  unfold find_wall_time. split.
  - destruct (dict_mem "slurm" hyper_config).
    + destruct (index3 "slurm" "batch" "t" hyper_config); discriminate.
    + destruct (dict_mem "pbs" hyper_config); [|now split].
      destruct (index3 "pbs" "batch" "l" hyper_config) as [l|e]; [|discriminate].
      destruct (iterate l) as [options|e]; [|discriminate].
      destruct (scan options) as [[w|]|e]; discriminate.
  - intros [-> ->]. reflexivity.
Qed.

End WallTimeFacts.

(** ** The check after a trial: an estimate that is not a number *)

Section BudgetMore.
Import Budget.
Local Open Scope float_scope.

Lemma add_nan (x : float) : x + nan = nan.
Proof.
  apply Prim2SF_inj. rewrite add_spec. change (Prim2SF nan) with S754_nan.
  unfold SF64add, SFadd.
  destruct (Prim2SF x) as [s|s| |s m e]; try destruct s; reflexivity.
Qed.

Lemma mul_nan (x : float) : x * nan = nan.
Proof.
  apply Prim2SF_inj. rewrite mul_spec. change (Prim2SF nan) with S754_nan.
  unfold SF64mul, SFmul.
  destruct (Prim2SF x) as [s|s| |s m e]; try destruct s; reflexivity.
Qed.

Lemma ltb_nan (x : float) : (x <? nan) = false.
Proof.
  rewrite ltb_spec. change (Prim2SF nan) with S754_nan.
  unfold SFltb, SFcompare.
  destruct (Prim2SF x) as [s|s| |s m e]; try destruct s; reflexivity.
Qed.

Lemma completed_durations_length (df : list trial_row) :
  List.length (completed_durations df) = completed df.
Proof.
  unfold completed_durations, completed.
  induction df as [|r df IH]; [reflexivity|]. cbn.
  destruct (datetime_complete r); cbn; now rewrite IH.
Qed.

(** With fewer than two completed trials the estimate is not a number. *)
Lemma estimate_of_few (df : list trial_row) :
  (completed df < 2)%nat -> estimate_of df = nan.
Proof.
  intros H. unfold estimate_of, std.
  rewrite completed_durations_length.
  destruct (Nat.leb_spec (completed df) 1) as [_|Hgt]; [|lia].
  now rewrite mul_nan, add_nan.
Qed.

(** X13: when the study has two rows or more but fewer than two completed
    trials, the check after a trial never stops the loop, however little
    wall time is left: the estimate is not a number, the comparison with
    it is false, and the next trial is launched with that estimate as
    its timeout. *)
Theorem few_completed_never_stops (nat_truthy : bool)
  (wall_time_secs elapsed : float) (df : list trial_row) :
  (1 < List.length df)%nat ->
  (completed df < 2)%nat ->
  early_stopping nat_truthy wall_time_secs df elapsed = Continue nan
  /\ forall required estimate it world,
      dataframe it = df -> elapsed_after it = elapsed ->
      (successful it < required)%Z -> outcome_of it = Returned ->
      optimize_loop nat_truthy required wall_time_secs estimate (it :: world)
      = let r := optimize_loop nat_truthy required wall_time_secs nan world in
        {| calls := {| n_trials := 1; timeout := estimate |} :: calls r;
           log := log r; ended := ended r |}.
Proof.
  intros Hrows Hfew.
  assert (Hcheck : early_stopping nat_truthy wall_time_secs df elapsed
                   = Continue nan).
  { rewrite early_stopping_many by assumption.
    now rewrite (estimate_of_few _ Hfew), ltb_nan. }
  split; [exact Hcheck|].
  intros required estimate it world Hdf Hel Hlt Hout.
  rewrite optimize_loop_returned by assumption.
  now rewrite Hdf, Hel, Hcheck.
Qed.

Lemma few_completed_never_stops_witness :
  early_stopping true 3600 Sample.one_done_one_running 3599 = Continue nan.
Proof.
  refine (proj1 (few_completed_never_stops true 3600 3599
                   Sample.one_done_one_running _ _)); cbn; lia.
Defined.

End BudgetMore.

(** ** The export of the best parameters *)

Section ReportFacts.
Import Config Objective Report.

Lemma last_default {A} (l : list A) (d d' : A) : l <> [] -> last l d = last l d'.
Proof.
  induction l as [|x l IH]; [congruence|]. intros _.
  destruct l as [|y l']; [reflexivity|]. apply IH. discriminate.
Qed.

Lemma last_of_split n : last (split_colon n) EmptyString = last_segment n.
Proof. unfold last_segment. apply last_default, split_colon_nonempty. Qed.







(** X16: right after the turn of a declared name with a colon, the reader
    finds, at the path the name spells, the best value stored under the
    name's last segment. *)
Theorem export_one_applied best_params model_config n model_config' :
  export_one best_params model_config n = Ok model_config' ->
  has_colon n = true ->
  exists v,
    dict_get (last_segment n) best_params = Some v
    /\ In (split_colon n, v) (recursive_config_reader model_config').
Proof.
  unfold export_one, getitem. rewrite last_of_split. intros H Hc.
  rewrite Hc in H.
  destruct (dict_get (last_segment n) best_params) as [v|]; [|discriminate].
  exists v. split; [reflexivity|].
  apply (recursive_update_applied _ _ _ _ [] H).
Qed.

Lemma export_one_applied_witness :
  exists v,
    dict_get (last_segment "model:lr") Sample.best_lr_layers = Some v
    /\ In (split_colon "model:lr", v)
          (recursive_config_reader
             [("model", Map [("lr", Leaf (VFloat 0.003))]); ("layers", Leaf (VInt 3))]).
Proof.
  apply (export_one_applied Sample.best_lr_layers Sample.model_for_report
           "model:lr"); reflexivity.
Defined.

End ReportFacts.

(** ** [save]: the in-memory ledger only grows *)

Section LedgerGrows.
Import Frame Objective.

Lemma grows_refl r : grows r r.
Proof. intros k l _ H. exists []. now rewrite app_nil_r. Qed.

Lemma grows_trans r1 r2 r3 : grows r1 r2 -> grows r2 r3 -> grows r1 r3.
Proof.
  intros H12 H23 k l Hk H1.
  destruct (H12 k l Hk H1) as [l' H2].
  destruct (H23 k _ Hk H2) as [l'' H3].
  exists (l' ++ l''). now rewrite app_assoc.
Qed.

Lemma growing_bind {A B} (c : M adapter A) (f : A -> M adapter B) :
  growing c -> (forall x, growing (f x)) -> growing (bind c f).
Proof.
  intros Hc Hf a a' out H.
  apply bind_inv in H as [(e & H0 & _)|(a1 & x & H0 & H1)].
  - eapply Hc, H0.
  - eapply grows_trans; [eapply Hc, H0|eapply Hf, H1].
Qed.

Lemma growing_append k v : growing (append k v).
Proof.
  intros a a' out H k0 l Hk0 Hl.
  pose proof (append_inv _ _ _ _ _ H) as (_ & Hraise & Hok).
  destruct out as [[]|e].
  - rewrite (Hok eq_refl k0).
    destruct (String.eqb_spec k0 k) as [->|_].
    + unfold column. rewrite Hl. now exists [v].
    + exists []. now rewrite app_nil_r.
  - destruct (Hraise e eq_refl) as [-> _]. now apply grows_refl.
Qed.

Lemma growing_for_each {A} (f : A -> M adapter unit) l :
  (forall x, growing (f x)) -> growing (for_each f l).
Proof.
  intros Hf. induction l as [|x l IH]; cbn [for_each].
  - intros a a' out [= <- _]. apply grows_refl.
  - apply growing_bind; [apply Hf|intros _; exact IH].
Qed.

Lemma growing_record t rd : growing (record_trial t rd).
Proof.
  rewrite (record_trial_unfold t rd).
  apply growing_bind; [apply growing_append|intros _].
  apply growing_bind;
    [apply growing_for_each; intros; apply growing_append|intros _].
  apply growing_bind;
    [apply growing_for_each; intros; apply growing_append|intros _].
  intros a a' out [= <- _] k l Hk Hl. cbn [results].
  exists []. rewrite app_nil_r, dict_get_set_other; assumption.
Qed.

Lemma growing_check metric rd : growing (check_metrics metric rd).
Proof.
  intros a a' out H. apply check_metrics_inv in H as [-> _]. apply grows_refl.
Qed.

Lemma growing_persist : growing persist.
Proof.
  intros a a' out H. apply persist_inv in H as (-> & _). apply grows_refl.
Qed.

Lemma growing_lookups ms : growing (map_m lookup ms).
Proof.
  intros a a' out H k l _ Hl. apply lookups_inv in H as (_ & _ & Hkeep).
  exists []. rewrite app_nil_r. now apply Hkeep.
Qed.

(** X17: [save] never removes or shortens a list of the in-memory ledger,
    however the call ends: every list it held is still there, with what
    the call appended after it. *)
Theorem save_ledger_grows metric t rd (a a' : adapter) out k l :
  save metric t rd a = (a', out) ->
  k <> "pruned" ->
  dict_get k (results a) = Some (Col l) ->
  exists l', dict_get k (results a') = Some (Col (l ++ l')).
Proof.
  intros H. revert k l.
  change (grows (results a) (results a')).
  revert a a' out H. change (growing (save metric t rd)). unfold save.
  apply growing_bind; [apply growing_check|intros _].
  apply growing_bind; [apply growing_record|intros _].
  apply growing_bind; [apply growing_persist|intros _].
  destruct metric as [m|ms].
  - intros a a' out [= <- _]. apply grows_refl.
  - apply growing_bind; [apply growing_lookups|intros es].
    intros a a' out [= <- _]. apply grows_refl.
Qed.

Lemma save_ledger_grows_witness :
  exists l',
    dict_get "lr"
      (results (fst (save (Single "val_loss") Sample.trial_3_without_lr
                       [("val_loss", VFloat 0.4)] Sample.worker_after_trial_2)))
    = Some (Col ([VFloat 0.05] ++ l')).
Proof.
  refine (save_ledger_grows (Single "val_loss") Sample.trial_3_without_lr
            [("val_loss", VFloat 0.4)] Sample.worker_after_trial_2 _ _ "lr"
            [VFloat 0.05] _ _ eq_refl).
  - vm_compute. reflexivity.
  - discriminate.
Defined.

End LedgerGrows.

(** ** The adapter as an object *)

Section AdapterFacts.
Import Config Frame Adapter.

Lemma length_append_str (a b : string) :
  String.length (a ++ b) = (String.length a + String.length b)%nat.
Proof. induction a as [|c a IH]; cbn; [reflexivity|now rewrite IH]. Qed.

Lemma append_inv_head_str (p a b : string) :
  (p ++ a)%string = (p ++ b)%string -> a = b.
Proof. induction p as [|c p IH]; cbn; [auto|]. intros [= H]. auto. Qed.

Lemma append_inv_tail_str (s : string) : forall a b : string,
  (a ++ s)%string = (b ++ s)%string -> a = b.
Proof.
  induction a as [|c a IH]; intros [|d b] H; cbn in H.
  - reflexivity.
  - apply (f_equal String.length) in H. cbn in H.
    rewrite length_append_str in H. lia.
  - apply (f_equal String.length) in H. cbn in H.
    rewrite length_append_str in H. lia.
  - injection H as -> H. f_equal. now apply IH.
Qed.

(** Joining a relative name puts it after a prefix that depends on the
    directory only. *)
Lemma path_join_relative a b :
  String.prefix "/" b = false ->
  path_join a b
  = ((if String.eqb a EmptyString || ends_with_slash a then a
      else a ++ "/") ++ b)%string.
Proof.
  intros H. unfold path_join. rewrite H.
  destruct (String.eqb a EmptyString || ends_with_slash a); [reflexivity|].
  now rewrite append_assoc_str.
Qed.

(** X18: for one save path, the results file name determines the node
    id: two workers with different node ids, or one with a node id and one
    without, never share a results file. *)
Theorem results_fn_injective (save_path : string) (n1 n2 : option string) :
  results_fn_of save_path n1 = results_fn_of save_path n2 -> n1 = n2.
Proof.
  unfold results_fn_of.
  set (dir := path_join save_path "results").
  assert (Hname : forall n : option string,
             String.prefix "/" (match n with
                                | Some id => "results_" ++ id ++ ".csv"
                                | None => "results.csv"
                                end)%string = false)
    by (intros [id|]; reflexivity).
  assert (Hjoin : forall n : option string,
             match n with
             | Some id => path_join dir ("results_" ++ id ++ ".csv")
             | None => path_join dir "results.csv"
             end
             = path_join dir (match n with
                              | Some id => "results_" ++ id ++ ".csv"
                              | None => "results.csv"
                              end)%string)
    by (intros [id|]; reflexivity).
  rewrite (Hjoin n1), (Hjoin n2).
  rewrite !path_join_relative by apply Hname.
  intros H. apply append_inv_head_str in H.
  destruct n1 as [id1|], n2 as [id2|]; cbn in H.
  - injection H as H. f_equal. now apply (append_inv_tail_str ".csv").
  - discriminate.
  - discriminate.
  - reflexivity.
Qed.

Lemma results_fn_injective_witness :
  Some "4711" = Some "4711".
Proof.
  apply (results_fn_injective "/glade/scratch/echo" (Some "4711") (Some "4711")).
  reflexivity.
Defined.

Section CallFacts.

Variable trial_suggest_loader : Objective.trial -> node -> result pyval.
Variable train : Objective.trial -> tree -> attempt (dict pyval).




(** For one metric name, [save] returns that metric's value. *)
Lemma save_single_value m t rd (a : Objective.adapter) v :
  snd (Objective.save (Objective.Single m) t rd a) = Ok v ->
  dict_get m rd = Some v.
Proof.
  destruct (Objective.save (Objective.Single m) t rd a) as [a' out] eqn:E.
  cbn. intros ->. revert E. unfold Objective.save. intros H.
  apply bind_inv in H as [(e & _ & [=])|(a0 & [] & _ & H)].
  apply bind_inv in H as [(e & _ & [=])|(a1 & [] & _ & H)].
  apply bind_inv in H as [(e & _ & [=])|(a2 & [] & _ & H)].
  unfold lift, Objective.getitem in H.
  destruct (dict_get m rd); now inversion H.
Qed.

(** X21: when a call returns a value for a study with one metric, that
    value is what the training routine reported under the metric's name,
    and the routine was run on the configuration that [update_config]
    made for the trial. *)
Theorem call_returns_trained_metric t w w' v m :
  metric (self w) = Objective.Single m ->
  call trial_suggest_loader train t w = (w', Got v) ->
  exists c rd,
    Objective.update_config trial_suggest_loader (config (self w)) t = Ok c
    /\ train t (Objective.new_conf c) = Got rd
    /\ dict_get m rd = Some v.
Proof.
  intros Hm. unfold call.
  assert (Hbound : forall b : world * attempt unit,
             b = (if _summon (self w) then (w, Got tt)
                  else set_properties None (One "cpu") w) ->
             config (self (fst b)) = config (self w)
             /\ metric (self (fst b)) = metric (self w)).
  { intros b ->. destruct (_summon (self w)); [now split|].
    unfold set_properties.
    destruct (save_path_of (config (self w))) as [sp|e]; [|now split].
    destruct (in_the_way _ (files w)); now split. }
  destruct (if _summon (self w) then (w, Got tt)
            else set_properties None (One "cpu") w) as [w1 [[]|e]] eqn:Eb;
    cbn [fst snd]; [|discriminate].
  destruct (Hbound _ eq_refl) as [Hc Hmet].
  cbn [fst] in Hc, Hmet. rewrite Hc.
  destruct (Objective.update_config _ _ t) as [c|e]; [|discriminate].
  destruct (train t (Objective.new_conf c)) as [rd|e] eqn:Et; [|discriminate].
  intros H. exists c, rd. split; [reflexivity|split; [exact Et|]].
  unfold save_self in H. rewrite Hmet, Hm in H.
  destruct (results (self w1)) as [r|].
  - destruct (results_fn (self w1)) as [fn|].
    + injection H as _ H.
      destruct (snd (Objective.save _ t rd _)) as [v'|e] eqn:Es; [|discriminate].
      injection H as ->. eapply save_single_value, Es.
    + injection H as _ H. destruct (snd (record_only _ t rd _)); discriminate.
  - destruct (Objective.check_metrics _ rd _) as [a [u|e]]; discriminate.
Qed.

End CallFacts.

End AdapterFacts.

Section AdapterExamples.
Import Config Frame Adapter.


Lemma call_returns_trained_metric_witness :
  exists c rd,
    Objective.update_config Sample.suggest_constant
      (config (self Sample.unbound_world)) Sample.trial_0 = Ok c
    /\ Sample.train_constant Sample.trial_0 (Objective.new_conf c) = Got rd
    /\ dict_get "val_loss" rd = Some (VFloat 0.25).
Proof.
  refine (call_returns_trained_metric Sample.suggest_constant
            Sample.train_constant Sample.trial_0 Sample.unbound_world
            Sample.bound_world (VFloat 0.25) "val_loss" eq_refl _).
  vm_compute. reflexivity.
Defined.

(** A file at the results directory or above it is in the way; the
    results file itself, below the directory, is not. *)
Example files_in_the_way :
  at_or_above "/glade/scratch/echo/results" "/glade/scratch/echo/results" = true
  /\ at_or_above "/glade/scratch/echo" "/glade/scratch/echo/results" = true
  /\ at_or_above "/glade/./scratch//echo" "/glade/scratch/echo/results" = true
  /\ at_or_above "/glade" "/glade/scratch/echo/results" = true
  /\ at_or_above "/glade/scratch/echo/results/results.csv"
       "/glade/scratch/echo/results" = false
  /\ at_or_above "/glade/scratch/other" "/glade/scratch/echo/results" = false
  /\ at_or_above "glade" "/glade/scratch/echo/results" = false.
Proof. repeat split; vm_compute; reflexivity. Qed.

(** With a regular file where the save path should be, the set-up of the
    first call stops at [os.makedirs]: the object is marked as summoned,
    has its device, worker index and empty ledger, and no results file
    name; the training routine is not run. *)
Example file_at_save_path_stops_set_up :
  let run := call Sample.suggest_constant Sample.train_constant Sample.trial_0
               Sample.blocked_world in
  snd run = Failed (OSError "Not a directory")
  /\ _summon (self (fst run)) = true
  /\ device (self (fst run)) = Some (One "cpu")
  /\ worker_index (self (fst run)) = Some None
  /\ results (self (fst run)) = Some []
  /\ results_fn (self (fst run)) = None
  /\ dirs (fst run) = [].
Proof. repeat split; vm_compute; reflexivity. Qed.

(** Two calls in one process: the second finds the adapter bound and adds
    its row to the ledger and to the file. *)
Example two_calls_two_rows :
  let w2 := fst (call Sample.suggest_constant Sample.train_constant
                   Sample.trial_1 Sample.bound_world) in
  option_map (fun df => map (dict_get "trial") (rows df))
    (dict_get "/glade/scratch/echo/results/results.csv" (files w2))
  = Some [Some (VInt 0); Some (VInt 1)].
Proof. vm_compute. reflexivity. Qed.

End AdapterExamples.

(** ** [save]: the trial numbers it writes *)

Section LedgerUnion.
Import Frame Objective.

Lemma trial_of_reindex cols r z :
  In "trial" cols ->
  trial_of (reindex cols r) = Ok z <-> trial_of r = Ok z.
Proof.
  intros Hin. unfold trial_of. rewrite (reindex_get _ _ _ Hin).
  destruct (dict_get "trial" r) as [[]|]; cbn; split; intros H;
    try discriminate; exact H.
Qed.

(** The trial numbers of keyed rows are those that some row gives. *)
Lemma keyed_numbers rs krs z :
  keyed rs = Ok krs ->
  In z (map fst krs) <-> exists r, In r rs /\ trial_of r = Ok z.
Proof.
  intros H. apply keyed_inv in H as [<- Hall]. rewrite Forall_forall in Hall.
  split.
  - intros Hz. apply in_map_iff in Hz as ([z' r] & Hz & Hin). cbn in Hz. subst z'.
    exists r. split; [now apply (in_map snd _ (z, r))|apply (Hall _ Hin)].
  - intros (r & Hr & Hz). apply in_map_iff in Hr as ([z' r'] & Hr' & Hin).
    cbn in Hr'. subst r'. specialize (Hall _ Hin). cbn in Hall.
    rewrite Hall in Hz. injection Hz as ->.
    now apply (in_map fst _ (z, r)).
Qed.

Lemma dedup_sort_numbers krs z :
  In z (map fst (sort_rows (drop_dups [] krs))) <-> In z (map fst krs).
Proof.
  rewrite In_map_fst_sort. split.
  - intros H. apply in_map_iff in H as (x & <- & Hx).
    apply in_map. eapply drop_dups_incl, Hx.
  - intros H. apply drop_dups_keys; [assumption|intros []].
Qed.

(** The rows of the frame of a ledger give the cells of its trial
    column. *)
Lemma frame_trial_numbers d mdf lt z :
  from_dict d = Ok mdf ->
  dict_get "trial" d = Some (Col lt) ->
  (exists r, In r (rows mdf) /\ trial_of r = Ok z) <-> In (VInt z) lt.
Proof.
  intros Hfd Ht. apply from_dict_inv in Hfd as (_ & L & Hrows & Hlen).
  specialize (Hlen _ _ (dict_get_In _ _ _ Ht)). rewrite Hrows.
  assert (Hcell : forall i, trial_of (row_at d i) = Ok z <-> nth i lt NaN = VInt z).
  { intros i. unfold trial_of. rewrite row_at_get, Ht. cbn [option_map cell_at].
    destruct (nth i lt NaN); split; intros H; try discriminate;
      [now injection H as ->|now injection H as ->]. }
  split.
  - intros (r & Hr & Hz). apply in_map_iff in Hr as (i & <- & Hi).
    apply in_seq in Hi. apply Hcell in Hz. rewrite <- Hz. apply nth_In. lia.
  - intros Hin. apply (In_nth _ _ NaN) in Hin as (i & Hi & Hnth).
    exists (row_at d i). split; [|now apply Hcell].
    apply in_map, in_seq. lia.
Qed.

(** X2: the trial numbers of the file that a successful [save] writes
    are exactly those of the in-memory ledger together with those of the
    rows the file had. *)
Theorem save_writes_union metric t rd (a a' : adapter) v :
  save metric t rd a = (a', Ok v) ->
  exists df ns,
    results_file a' = Some df
    /\ trial_numbers df = Ok ns
    /\ forall z,
        In z ns
        <-> In (VInt z) (column "trial" (results a'))
            \/ exists file r, results_file a = Some file
                              /\ In r (rows file) /\ trial_of r = Ok z.
Proof.
  intros H.
  destruct (save_ok_results _ _ _ _ _ _ H) as (a1 & Hrec1 & Hres).
  apply save_inv in H as (a1' & a2 & pout & Hrec & Hper & Hf' & _ & Hok);
    [|exact I].
  rewrite Hrec1 in Hrec. injection Hrec as <-.
  rewrite (Hok v eq_refl) in Hper.
  pose proof (record_trial_inv _ _ _ _ _ Hrec1) as (Hf1 & _).
  destruct (record_trial_trial_column _ _ _ _ Hrec1) as (lt & Htrial & _).
  apply persist_inv in Hper as (_ & _ & Hper).
  destruct (Hper eq_refl) as (mdf & full & df & Hmdf & Hmerged & Hds & Hdf).
  apply dedup_sort_inv in Hds as (krs & Hkrs & _ & Hns & _).
  exists df, (map fst (sort_rows (drop_dups [] krs))).
  split; [congruence|split; [assumption|]].
  intros z. rewrite dedup_sort_numbers, (keyed_numbers _ _ z Hkrs).
  unfold column. rewrite Hres, Htrial.
  rewrite <- (frame_trial_numbers _ _ _ z Hmdf Htrial).
  pose proof (from_dict_inv _ _ Hmdf) as (Hcolumns & _).
  assert (Htc : In "trial" (columns mdf)).
  { rewrite Hcolumns. eapply dict_get_in_keys, Htrial. }
  unfold merged in Hmerged. rewrite Hf1 in Hmerged.
  destruct (results_file a) as [file|].
  - destruct Hmerged as (other & Hread & ->).
    unfold read_csv in Hread.
    destruct (forallb _ (columns mdf)) eqn:Eall; [|discriminate].
    injection Hread as <-. rewrite forallb_forall in Eall.
    unfold concat. cbn [rows columns].
    set (cols_o := filter _ (columns file)).
    set (cols := columns mdf ++ _).
    assert (Hto : In "trial" cols_o).
    { apply filter_In. split; [apply mem_str_In, Eall, Htc|now apply mem_str_In]. }
    assert (Htcols : In "trial" cols) by (apply in_or_app; now left).
    split.
    + intros (r & Hr & Hz). apply in_map_iff in Hr as (r0 & <- & Hr0).
      apply trial_of_reindex in Hz; [|assumption].
      apply in_app_or in Hr0 as [Hr0|Hr0]; [left; now exists r0|right].
      apply in_map_iff in Hr0 as (r1 & <- & Hr1).
      apply trial_of_reindex in Hz; [|assumption].
      now exists file, r1.
    + intros [(r & Hr & Hz)|(file' & r & [= <-] & Hr & Hz)].
      * exists (reindex cols r). split; [|now apply trial_of_reindex].
        apply in_map, in_or_app. now left.
      * exists (reindex cols (reindex cols_o r)).
        split; [|now apply trial_of_reindex, trial_of_reindex].
        apply in_map, in_or_app. right. now apply in_map.
  - subst full. split.
    + intros Hr. now left.
    + intros [Hr|(file' & r & [=] & _)]. exact Hr.
Qed.

Lemma save_writes_union_witness :
  exists df ns,
    results_file Sample.worker_after_trial_2 = Some df
    /\ trial_numbers df = Ok ns
    /\ forall z,
        In z ns
        <-> In (VInt z) (column "trial" (results Sample.worker_after_trial_2))
            \/ exists file r, results_file Sample.fresh_worker = Some file
                              /\ In r (rows file) /\ trial_of r = Ok z.
Proof.
  apply (save_writes_union (Single "val_loss") Sample.trial_2
           [("val_loss", VFloat 0.5)] Sample.fresh_worker
           Sample.worker_after_trial_2 (VFloat 0.5)).
  vm_compute. reflexivity.
Defined.

End LedgerUnion.
